(** * Readiness gating, request proxying and teardown of the
      text-embeddings and text-generation example deployments

    Shallow embedding of
      - [06_gpu_and_ml/embeddings/text_embeddings_inference.py]  (module [Tei])
      - [06_gpu_and_ml/text_generation_inference.py]             (module [Tgi])

    The two scripts spawn an inference server as a subprocess, poll a loopback
    TCP port until it accepts connections, proxy requests to it over HTTP and
    signal the subprocess when the container is torn down.  Everything the
    scripts obtain from the outside (the result of a connect attempt, the state
    of the child process, the HTTP responses, the token stream) is an explicit
    input of the model; everything they do to the outside (connects, polls,
    sleeps, prints, HTTP requests, signals) is recorded in a trace.

    A Python [str] that the code only carries (a prompt, a text to embed, a
    fragment) is a [string]; where the code cuts a text by its characters
    ([download_data]) it is the list of its code points, [pystr]. *)

From Stdlib Require Import ZArith List String Ascii Bool Arith Lia.
From Stdlib Require Import DecimalString DecimalZ DecimalPos.
From ExtLib Require Import Structures.Monad Structures.MonadState Structures.MonadExc.
From ExtLib Require Import Data.Monads.StateMonad Data.Monads.EitherMonad.
Import ListNotations.
Import MonadNotation.
Local Open Scope monad_scope.
Local Open Scope string_scope.
Local Open Scope list_scope.
Local Open Scope nat_scope.

Set Implicit Arguments.
Set Warnings "-register-all".

(* ===================================================================== *)
(** ** Python values shared by both scripts *)
(* ===================================================================== *)

(** [str(n)] / [f"{n}"] for a Python [int]. *)
Definition str_of_int (n : Z) : string :=
  NilZero.string_of_int (Z.to_int n).

(** The exceptions the two scripts can raise or let through. *)
Inductive exn : Type :=
| RuntimeError (msg : string)          (* raised by the readiness gate *)
| OSError (msg : string)               (* a socket error the gate does not catch *)
| ValueError (msg : string)            (* tuple unpacking *)
| HTTPStatusError (status : Z)         (* httpx: [raise_for_status] *)
| JSONDecodeError                      (* httpx: [resp.json()] *)
| TypeError (msg : string)             (* iterating a non-iterable *)
| KeyError (key : string)              (* [str.format] with a missing field *)
| ClientError (msg : string).          (* text_generation client errors *)

(* ===================================================================== *)
(** ** [subprocess] and [socket]: the part of the standard library in use *)
(* ===================================================================== *)

Module Subprocess.

Inductive signal : Type := SIGTERM | SIGKILL.

(** What the operating system knows about the child. *)
Inductive child_state : Type :=
| Running
| Exited (code : Z).

(** A [Popen] object: the command line and the cached [returncode]. *)
Record Popen : Type := mkPopen
  { args : list string
  ; returncode : option Z }.

(** [subprocess.Popen(argv)]. *)
Definition spawn (argv : list string) : Popen :=
  {| args := argv; returncode := None |}.

(** [Popen.poll()]: the cached return code if there is one, else the
    child's exit status if it has exited (which is then cached). *)
Definition poll (child : child_state) (p : Popen) : option Z * Popen :=
  match returncode p with
  | Some c => (Some c, p)
  | None =>
      match child with
      | Running => (None, p)
      | Exited c => (Some c, {| args := args p; returncode := Some c |})
      end
  end.

(** [Popen.send_signal(sig)]: polls first and does nothing if the process
    has completed; otherwise delivers the signal.  The first component is
    the list of signals delivered to the child. *)
Definition send_signal (sig : signal) (child : child_state) (p : Popen)
  : list signal * Popen :=
  let '(rc, p') := poll child p in
  match rc with
  | Some _ => ([], p')
  | None => ([sig], p')
  end.

(** [Popen.terminate()] sends SIGTERM, [Popen.kill()] sends SIGKILL. *)
Definition terminate := send_signal SIGTERM.
Definition kill := send_signal SIGKILL.

End Subprocess.

Module Socket.

(** Outcome of [socket.create_connection((host, port), timeout=t)]. *)
Inductive connect_result : Type :=
| Connected
| Timeout                     (* socket.timeout *)
| ConnectionRefused           (* ConnectionRefusedError *)
| OtherFailure (msg : string). (* any other OSError *)

End Socket.

Import Subprocess Socket.

(** What the outside world shows to the [i]-th iteration of a polling loop:
    the outcome of the connect attempt and the state of the child when it is
    polled. *)
Record observation : Type := mkObs
  { connect : connect_result
  ; child : child_state }.

Definition environment : Type := nat -> observation.

(** Everything a polling loop does to the outside world. *)
Inductive event : Type :=
| EvSpawn (argv : list string)
| EvConnect (host : string) (port : Z) (timeout : Z) (r : connect_result)
| EvClose
| EvPoll (rc : option Z)
| EvSleep (seconds : Z)
| EvPrint (line : string).

(** How a run ends: the loop is still going when the fuel is exhausted, or
    the function returned, or it raised. *)
Inductive outcome (A : Type) : Type :=
| StillPolling
| Returned (a : A)
| Raised (e : exn).
Arguments StillPolling {A}.
Arguments Returned {A} a.
Arguments Raised {A} e.

Definition unexpected_exit (retcode : Z) : exn :=
  RuntimeError ("launcher exited unexpectedly with code " ++ str_of_int retcode)%string.

(* ===================================================================== *)
(** ** JSON values and the effect monad of the request proxies *)
(* ===================================================================== *)

(** A decoded JSON document.  A number is kept as the decimal literal
    [mantissa * 10 ^ exponent]: with exponent 0 for a literal that is a
    plain integer, which Python reads as an [int], and with another exponent
    for a literal with a fraction or an exponent part, which it reads as a
    [float]. *)
Inductive json : Type :=
| JNull
| JBool (b : bool)
| JNum (mantissa exponent : Z)
| JStr (s : string)
| JArr (items : list json)
| JObj (members : list (string * json)).

Fixpoint chars (s : string) : list json :=
  match s with
  | EmptyString => []
  | String c rest => JStr (String c EmptyString) :: chars rest
  end.

(** Python iteration over a decoded JSON value, as [zip] performs it: a list
    gives its items, a dict its keys, a string its characters; anything else
    is not iterable. *)
Definition py_iter (v : json) : exn + list json :=
  match v with
  | JArr items => inr items
  | JObj members => inr (map (fun kv => JStr (fst kv)) members)
  | JStr s => inr (chars s)
  | JNull => inl (TypeError "'NoneType' object is not iterable")
  | JBool _ => inl (TypeError "'bool' object is not iterable")
  | JNum _ exponent =>
      inl (TypeError (if (exponent =? 0)%Z
                      then "'int' object is not iterable"
                      else "'float' object is not iterable"))
  end.

(** A computation that appends to a log of upstream calls of type [R] and
    may raise; the log survives an exception. *)
Definition proxy (R : Type) : Type -> Type := eitherT exn (state (list R)).

Definition run_proxy {R A : Type} (c : proxy R A) (log : list R)
  : (exn + A) * list R :=
  runState (unEitherT c) log.

(** Lift a pure computation that may raise. *)
Definition lift_exn {R A : Type} (r : exn + A) : proxy R A :=
  match r with
  | inl e => raise e
  | inr a => ret a
  end.

(** Record one upstream call and return the log as it was before it. *)
Definition record_call {R : Type} (call : R) : proxy R (list R) :=
  log <- get ;;
  put (log ++ [call]) ;;
  ret log.

(** A Python [str] where the code counts or cuts its characters: the
    sequence of its code points. *)
Definition pystr : Type := list N.

(** The slice [s[:n]]: the first [n] code points, or all of them when there
    are fewer. *)
Definition py_slice_to (n : nat) (s : pystr) : pystr := firstn n s.

(* ===================================================================== *)
(** ** [embeddings/text_embeddings_inference.py] *)
(* ===================================================================== *)

Module Tei.

Definition MODEL_ID : string := "BAAI/bge-base-en-v1.5".
Definition BATCH_SIZE : nat := 32.
Definition LAUNCH_FLAGS : list string :=
  ["--model-id"; MODEL_ID; "--port"; "8000"].

(** The body of [while True:] in [spawn_server], unrolled [fuel] times
    starting at iteration [i]. *)
Fixpoint spawn_server_loop (env : environment) (fuel i : nat) (process : Popen)
  : list event * outcome Popen :=
  match fuel with
  | O => ([], StillPolling)
  | S fuel' =>
      let r := connect (env i) in
      match r with
      | Connected =>
          ([EvConnect "127.0.0.1" 8000 1 r; EvClose; EvPrint "Webserver ready!"],
           Returned process)
      | Timeout | ConnectionRefused =>
          let '(retcode, process') := poll (child (env i)) process in
          match retcode with
          | Some c =>
              ([EvConnect "127.0.0.1" 8000 1 r; EvPoll retcode],
               Raised (unexpected_exit c))
          | None =>
              let '(tr, out) := spawn_server_loop env fuel' (S i) process' in
              (EvConnect "127.0.0.1" 8000 1 r :: EvPoll retcode :: tr, out)
          end
      | OtherFailure msg =>
          ([EvConnect "127.0.0.1" 8000 1 r], Raised (OSError msg))
      end
  end.

Definition spawn_server (env : environment) (fuel : nat)
  : list event * outcome Popen :=
  let argv := "text-embeddings-router" :: LAUNCH_FLAGS in
  let process := spawn argv in
  let '(tr, out) := spawn_server_loop env fuel 0 process in
  (EvSpawn argv :: tr, out).

(** *** The class [TextEmbeddingsInference] *)

(** [httpx.AsyncClient(base_url=...)]. *)
Record AsyncClient : Type := mkClient { base_url : string }.

Record TextEmbeddingsInference : Type := mkTei
  { process : Popen
  ; client : AsyncClient }.

Definition __enter__ (env : environment) (fuel : nat)
  : list event * outcome TextEmbeddingsInference :=
  let '(tr, out) := spawn_server env fuel in
  match out with
  | StillPolling => (tr, StillPolling)
  | Raised e => (tr, Raised e)
  | Returned p =>
      (tr, Returned {| process := p
                     ; client := {| base_url := "http://127.0.0.1:8000" |} |})
  end.

(** [__exit__]: [self.process.terminate()].  Returns the signals delivered
    to the child and the object afterwards. *)
Definition __exit__ (child : child_state) (self : TextEmbeddingsInference)
  : list signal * TextEmbeddingsInference :=
  let '(sigs, p) := terminate child (process self) in
  (sigs, {| process := p; client := client self |}).

(** *** The loopback HTTP exchange *)

Record http_request : Type := mkRequest
  { verb : string
  ; url : string
  ; body : json }.

(** A response: its status code and its body, [None] when the body does
    not decode as JSON. *)
Record http_response : Type := mkResponse
  { status_code : Z
  ; content : option json }.

(** The embedding server, seen from the proxy: what it answers to a
    request, given the requests it has received before. *)
Definition upstream : Type := list http_request -> http_request -> http_response.

(** [client.post(path, json=payload)], awaited. *)
Definition post (self : TextEmbeddingsInference) (server : upstream)
    (path : string) (payload : json) : proxy http_request http_response :=
  let req := {| verb := "POST"; url := (base_url (client self) ++ path)%string; body := payload |} in
  earlier <- record_call req ;;
  ret (server earlier req).

(** httpx: [Response.is_success] and [Response.raise_for_status()]. *)
Definition is_success (resp : http_response) : bool :=
  (200 <=? status_code resp)%Z && (status_code resp <=? 299)%Z.

Definition raise_for_status (resp : http_response) : proxy http_request unit :=
  if is_success resp then ret tt else raise (HTTPStatusError (status_code resp)).

(** [resp.json()]. *)
Definition resp_json (resp : http_response) : proxy http_request json :=
  match content resp with
  | Some v => ret v
  | None => raise JSONDecodeError
  end.

(** The unpacking of the transposed [inputs_with_ids] into [ids, inputs], which
    yields two tuples only when there is at least one pair. *)
Definition unpack_pairs (inputs_with_ids : list (Z * string))
  : exn + (list Z * list string) :=
  match inputs_with_ids with
  | [] => inl (ValueError "not enough values to unpack (expected 2, got 0)")
  | _ :: _ => inr (split inputs_with_ids)
  end.

(** [zip(ids, outputs)]: pairs by position, as long as both last. *)
Definition py_zip (ids : list Z) (outputs : json) : exn + list (Z * json) :=
  match py_iter outputs with
  | inl e => inl e
  | inr items => inr (combine ids items)
  end.

(** [TextEmbeddingsInference.embed] up to the [zip(ids, outputs)] of its
    last line: the result is the sequence of pairs that this [zip] holds.
    The object the method returns around it is [embed_returns], below. *)
Definition embed (self : TextEmbeddingsInference) (server : upstream)
    (inputs_with_ids : list (Z * string))
  : proxy http_request (list (Z * json)) :=
  '(ids, inputs) <- lift_exn (unpack_pairs inputs_with_ids) ;;
  resp <- post self server "/embed" (JObj [("inputs", JArr (map JStr inputs))]) ;;
  raise_for_status resp ;;
  outputs <- resp_json resp ;;
  lift_exn (py_zip ids outputs).

(** *** [embed_dataset] *)

(** The generator [generate_batches]: [batch] is the list being filled,
    [data] what is left of the loop over the data.  Nothing is yielded
    after the loop. *)
Fixpoint generate_batches_loop (batch_size : nat) (batch : list (Z * string))
    (data : list (Z * string)) : list (list (Z * string)) :=
  match data with
  | [] => []
  | item :: rest =>
      let batch' := batch ++ [item] in
      if Nat.eqb (List.length batch') batch_size
      then batch' :: generate_batches_loop batch_size [] rest
      else generate_batches_loop batch_size batch' rest
  end.

Definition generate_batches_of (batch_size : nat) (data : list (Z * string))
  : list (list (Z * string)) :=
  generate_batches_loop batch_size [] data.

Definition generate_batches : list (Z * string) -> list (list (Z * string)) :=
  generate_batches_of BATCH_SIZE.

(** [model.embed.map(batches)] read as one [embed] call per batch, taken
    one after the other in the order of the generator, the first exception
    ending the iteration.  The platform may run the calls side by side and
    hand their results in another order ([order_outputs=False]); that is
    not described here. *)
Fixpoint embed_map (self : TextEmbeddingsInference) (server : upstream)
    (batches : list (list (Z * string)))
  : proxy http_request (list (list (Z * json))) :=
  match batches with
  | [] => ret []
  | batch :: rest =>
      output_batch <- embed self server batch ;;
      outputs <- embed_map self server rest ;;
      ret (output_batch :: outputs)
  end.

(** The loop of [embed_dataset] over the loaded [data], for a batch size. *)
Definition embed_dataset_of (batch_size : nat) (self : TextEmbeddingsInference)
    (server : upstream) (data : list (Z * string))
  : proxy http_request (list (list (Z * json))) :=
  embed_map self server (generate_batches_of batch_size data).

Definition embed_dataset := embed_dataset_of BATCH_SIZE.

(** *** [download_data] *)

(** [max_results] of [client.list_rows]. *)
Definition MAX_RESULTS : nat := 100 * 1000.

(** The [lambda x: x[:512]] of [download_data], applied to a cell of the
    text column: a cell that holds no string cannot be sliced. *)
Definition truncate_text (x : option pystr) : exn + pystr :=
  match x with
  | Some text => inr (py_slice_to 512 text)
  | None => inl (TypeError "'NoneType' object is not subscriptable")
  end.

(** [Series.apply(f)]: [f] on each cell in turn; the first exception ends it. *)
Fixpoint series_apply (f : option pystr -> exn + pystr)
    (column : list (option pystr)) : exn + list pystr :=
  match column with
  | [] => inr []
  | x :: rest =>
      match f x with
      | inl e => inl e
      | inr y =>
          match series_apply f rest with
          | inl e => inl e
          | inr ys => inr (y :: ys)
          end
      end
  end.

(** [download_data], given the rows of the table (identifier and text
    cell): the data it dumps to [DATA_PATH]. *)
Definition download_data (table : list (Z * option pystr))
  : exn + list (Z * pystr) :=
  let rows := firstn MAX_RESULTS table in
  let ids := map fst rows in
  match series_apply truncate_text (map snd rows) with
  | inl e => inl e
  | inr texts => inr (combine ids texts)
  end.

(** *** The object [embed] returns *)






End Tei.

(* ===================================================================== *)
(** ** [text_generation_inference.py] *)
(* ===================================================================== *)

(** [str.format] with keyword arguments, for templates whose replacement
    fields are plain names ([{name}]) and which hold no doubled braces.
    [field] is [Some name] while the scan is inside a replacement field. *)
Fixpoint format_from (kwargs : list (string * string)) (field : option string)
    (template : string) : exn + string :=
  match template with
  | EmptyString =>
      match field with
      | None => inr EmptyString
      | Some _ => inl (ValueError "expected '}' before end of string")
      end
  | String c rest =>
      match field with
      | None =>
          if Ascii.eqb c "{" then format_from kwargs (Some EmptyString) rest
          else if Ascii.eqb c "}"
          then inl (ValueError "Single '}' encountered in format string")
          else match format_from kwargs None rest with
               | inl e => inl e
               | inr s => inr (String c s)
               end
      | Some name =>
          if Ascii.eqb c "}"
          then match find (fun kv => String.eqb (fst kv) name) kwargs with
               | None => inl (KeyError name)
               | Some kv =>
                   match format_from kwargs None rest with
                   | inl e => inl e
                   | inr s => inr (snd kv ++ s)%string
                   end
               end
          else format_from kwargs (Some (name ++ String c EmptyString)%string) rest
      end
  end.

Definition str_format (template : string) (kwargs : list (string * string))
  : exn + string :=
  format_from kwargs None template.

(** *** [json.dumps] of a string, with [ensure_ascii=False] *)

Definition dquote : ascii := ascii_of_nat 34.
Definition backslash : ascii := ascii_of_nat 92.

Definition hex_digit (n : nat) : ascii :=
  nth n (list_ascii_of_string "0123456789abcdef") "0"%char.

(** The replacement of one character: the short escapes, the escape with
    four hexadecimal digits for the other control characters, and the
    character itself otherwise. *)
Definition escape_char (c : ascii) : string :=
  let n := nat_of_ascii c in
  if Nat.eqb n 34 then String backslash (String dquote EmptyString)
  else if Nat.eqb n 92 then String backslash (String backslash EmptyString)
  else if Nat.eqb n 8 then String backslash "b"
  else if Nat.eqb n 12 then String backslash "f"
  else if Nat.eqb n 10 then String backslash "n"
  else if Nat.eqb n 13 then String backslash "r"
  else if Nat.eqb n 9 then String backslash "t"
  else if Nat.ltb n 32
       then String backslash
              (String "u" (String "0" (String "0"
                 (String (hex_digit (n / 16)) (String (hex_digit (n mod 16)) EmptyString)))))
       else String c EmptyString.

Fixpoint escape (s : string) : string :=
  match s with
  | EmptyString => EmptyString
  | String c rest => (escape_char c ++ escape rest)%string
  end.

(** [json.dumps(s, ensure_ascii=False)] for a string [s]. *)
Definition json_dumps_str (s : string) : string :=
  String dquote (escape s ++ String dquote EmptyString)%string.

Module Tgi.

Definition MODEL_ID : string := "meta-llama/Llama-2-70b-chat-hf".
Definition REVISION : string := "36d9a7388cc80e5f4b3e9701ca2f250d21a96c30".
Definition LAUNCH_FLAGS : list string :=
  ["--model-id"; MODEL_ID; "--port"; "8000"; "--revision"; REVISION].

(** [text_generation.AsyncClient(base_url, timeout=...)]. *)
Record AsyncClient : Type := mkClient
  { base_url : string
  ; timeout : Z }.

Record Model : Type := mkModel
  { launcher : Popen
  ; client : AsyncClient
  ; template : string }.

Definition nl : string := String (ascii_of_nat 10) EmptyString.

(** The instruction template of [__enter__]. *)
Definition TEMPLATE : string :=
  ("<s>[INST] <<SYS>>" ++ nl ++ "{system}" ++ nl ++ "<</SYS>>" ++ nl ++ nl
     ++ "{user} [/INST] ")%string.

(** The closure [webserver_ready] of [__enter__]: one connect attempt.
    Polling the launcher updates the object. *)
Definition webserver_ready (o : observation) (self : Model)
  : list event * Model * (exn + bool) :=
  let r := connect o in
  match r with
  | Connected => ([EvConnect "127.0.0.1" 8000 1 r; EvClose], self, inr true)
  | Timeout | ConnectionRefused =>
      let '(retcode, launcher') := poll (child o) (launcher self) in
      let self' := {| launcher := launcher'
                    ; client := client self
                    ; template := template self |} in
      match retcode with
      | Some c =>
          ([EvConnect "127.0.0.1" 8000 1 r; EvPoll retcode], self',
           inl (unexpected_exit c))
      | None =>
          ([EvConnect "127.0.0.1" 8000 1 r; EvPoll retcode], self', inr false)
      end
  | OtherFailure msg =>
      ([EvConnect "127.0.0.1" 8000 1 r], self, inl (OSError msg))
  end.

(** [while not webserver_ready(): time.sleep(1.0)] followed by the print,
    unrolled [fuel] times starting at iteration [i]. *)
Fixpoint enter_loop (env : environment) (fuel i : nat) (self : Model)
  : list event * outcome Model :=
  match fuel with
  | O => ([], StillPolling)
  | S fuel' =>
      let '(evs, self', ready) := webserver_ready (env i) self in
      match ready with
      | inl e => (evs, Raised e)
      | inr true => (evs ++ [EvPrint "Webserver ready!"], Returned self')
      | inr false =>
          let '(tr, out) := enter_loop env fuel' (S i) self' in
          (evs ++ EvSleep 1 :: tr, out)
      end
  end.

Definition __enter__ (env : environment) (fuel : nat)
  : list event * outcome Model :=
  let argv := "text-generation-launcher" :: LAUNCH_FLAGS in
  let self := {| launcher := spawn argv
               ; client := {| base_url := "http://127.0.0.1:8000"; timeout := 60 |}
               ; template := TEMPLATE |} in
  let '(tr, out) := enter_loop env fuel 0 self in
  (EvSpawn argv :: tr, out).

(** [__exit__]: [self.launcher.terminate()]. *)
Definition __exit__ (child : child_state) (self : Model)
  : list signal * Model :=
  let '(sigs, p) := terminate child (launcher self) in
  (sigs, {| launcher := p; client := client self; template := template self |}).

(** *** The generation server, seen through the [text_generation] client *)

Record Token : Type := mkToken
  { id : Z
  ; text : string
  ; special : bool }.

Record StreamResponse : Type := mkStreamResponse
  { token : Token
  ; final_text : option string }.

Record Response : Type := mkResponse
  { generated_text : string }.

(** One call made to the generation server. *)
Record generate_call : Type := mkCall
  { streaming : bool
  ; prompt : string
  ; max_new_tokens : Z }.

(** What the server answers, given the calls made before: to [generate], a
    response or an error (bad status, timeout); to [generate_stream], the
    responses it emits and how the stream ends ([None]: it closes). *)
Record upstream : Type := mkUpstream
  { on_generate : list generate_call -> string -> Z -> exn + Response
  ; on_generate_stream :
      list generate_call -> string -> Z -> list StreamResponse * option exn }.

(** [await self.client.generate(prompt, max_new_tokens=n)]. *)
Definition client_generate (server : upstream) (p : string) (n : Z)
  : proxy generate_call Response :=
  earlier <- record_call {| streaming := false; prompt := p; max_new_tokens := n |} ;;
  lift_exn (on_generate server earlier p n).

(** [Model.generate]. *)
Definition generate (self : Model) (server : upstream) (question : string)
  : proxy generate_call string :=
  p <- lift_exn (str_format (template self) [("system", ""); ("user", question)]) ;;
  result <- client_generate server p 1024 ;;
  ret (generated_text result).

(** *** [Model.generate_stream], an asynchronous generator *)

(** The generator object: created and not started; suspended at its
    [yield] with the rest of the upstream stream ahead; or finished. *)
Inductive generator : Type :=
| Pending (question : string)
| Streaming (rest : list StreamResponse) (ending : option exn)
| Finished.

(** What one [__anext__] gives the consumer. *)
Inductive step : Type :=
| Yield (fragment : string)
| StopAsyncIteration
| Throw (e : exn).

(** The [async for] of the generator body, resumed with [rest] ahead: runs
    to the next [yield], to the end of the upstream stream or to its
    failure. *)
Fixpoint resume (rest : list StreamResponse) (ending : option exn)
  : step * generator :=
  match rest with
  | [] =>
      match ending with
      | None => (StopAsyncIteration, Finished)
      | Some e => (Throw e, Finished)
      end
  | response :: rest' =>
      if negb (special (token response))
      then (Yield (text (token response)), Streaming rest' ending)
      else resume rest' ending
  end.

(** [__anext__] on the generator: the first one formats the prompt and
    opens the upstream stream. *)
Definition anext (self : Model) (server : upstream) (g : generator)
    (log : list generate_call) : step * generator * list generate_call :=
  match g with
  | Pending question =>
      match str_format (template self) [("system", ""); ("user", question)] with
      | inl e => (Throw e, Finished, log)
      | inr p =>
          let call := {| streaming := true; prompt := p; max_new_tokens := 1024 |} in
          let '(responses, ending) := on_generate_stream server log p 1024 in
          (resume responses ending, log ++ [call])
      end
  | Streaming rest ending => (resume rest ending, log)
  | Finished => (StopAsyncIteration, Finished, log)
  end.

(** [Model.generate_stream(question)]: calling it only creates the generator. *)
Definition generate_stream (question : string) : generator := Pending question.

(** How a consumer's [async for] over the generator ends. *)
Inductive completion : Type :=
| Completed
| Failed (e : exn)
| Suspended (g : generator).

(** A consumer that takes every fragment: at most [fuel] calls of
    [__anext__]. *)
Fixpoint consume (self : Model) (server : upstream) (fuel : nat)
    (g : generator) (log : list generate_call)
  : list string * completion * list generate_call :=
  match fuel with
  | O => ([], Suspended g, log)
  | S fuel' =>
      let '(s, g', log') := anext self server g log in
      match s with
      | Yield fragment =>
          let '(fragments, c, log'') := consume self server fuel' g' log' in
          (fragment :: fragments, c, log'')
      | StopAsyncIteration => ([], Completed, log')
      | Throw e => ([], Failed e, log')
      end
  end.

(** *** The web endpoint [/completion/{question}] of [app] *)

(** [json.dumps(dict(text=text), ensure_ascii=False)]. *)
Definition json_dumps_text (fragment : string) : string :=
  (String "{" (json_dumps_str "text") ++ ": " ++ json_dumps_str fragment ++ "}")%string.

(** The server-sent event the inner [generate] yields for a fragment. *)
Definition sse_event (fragment : string) : string :=
  ("data: " ++ json_dumps_text fragment ++ nl ++ nl)%string.

(** The endpoint [completion(question)]: the events of its streaming
    response, taken to the end by at most [fuel] steps.  [unquote] is
    [urllib.parse.unquote]. *)
Definition app_completion (unquote : string -> string) (self : Model)
    (server : upstream) (fuel : nat) (question : string)
    (log : list generate_call)
  : list string * completion * list generate_call :=
  let '(fragments, c, log') :=
    consume self server fuel (generate_stream (unquote question)) log in
  (map sse_event fragments, c, log').

End Tgi.

(* ===================================================================== *)
(** ** Vocabulary of the statements *)
(* ===================================================================== *)

(** The connect failures both gates catch ([socket.timeout] and
    [ConnectionRefusedError]). *)
Definition caught (r : connect_result) : bool :=
  match r with
  | Timeout | ConnectionRefused => true
  | Connected | OtherFailure _ => false
  end.

(** An iteration that finds no listener and a child still running. *)
Definition waiting (o : observation) : Prop :=
  caught (connect o) = true /\ child o = Running.

(** The child has exited with [code] and the port does not accept. *)
Definition exited_unconnectable (code : Z) (o : observation) : Prop :=
  caught (connect o) = true /\ child o = Exited code.

Definition is_connect (ev : event) : bool :=
  match ev with EvConnect _ _ _ _ => true | _ => false end.

Definition is_successful_connect (ev : event) : bool :=
  match ev with EvConnect _ _ _ Connected => true | _ => false end.

Definition is_close (ev : event) : bool :=
  match ev with EvClose => true | _ => false end.

Definition is_sleep (ev : event) : bool :=
  match ev with EvSleep _ => true | _ => false end.

(** Number of events of a kind in a trace; of connect attempts. *)
Definition count (kind : event -> bool) (tr : list event) : nat :=
  List.length (filter kind tr).

Definition attempts (tr : list event) : nat := count is_connect tr.

Definition probe (o : observation) : event :=
  EvConnect "127.0.0.1" 8000 1 (connect o).

(** What [k] fruitless iterations starting at iteration [i] leave in the
    trace: of [spawn_server], and of the loop of [Model.__enter__], which
    sleeps one second after each. *)
Definition tei_rounds (env : environment) (i k : nat) : list event :=
  flat_map (fun j => [probe (env j); EvPoll None]) (seq i k).

Definition tgi_rounds (env : environment) (i k : nat) : list event :=
  flat_map (fun j => [probe (env j); EvPoll None; EvSleep 1]) (seq i k).

(** The subprocess that never opens the port and never exits. *)
Definition hanging : environment :=
  fun _ => {| connect := Timeout; child := Running |}.

(** A child that is found exited with code [code] from iteration [k] on,
    and a port that refuses every connection. *)
Definition exits_at (k : nat) (code : Z) : environment :=
  fun i => {| connect := ConnectionRefused
            ; child := if i <? k then Running else Exited code |}.

(** A port that accepts connections from iteration [k] on. *)
Definition ready_at (k : nat) : environment :=
  fun i => {| connect := if i <? k then ConnectionRefused else Connected
            ; child := Running |}.

Definition tei_argv : list string := "text-embeddings-router" :: Tei.LAUNCH_FLAGS.
Definition tgi_argv : list string := "text-generation-launcher" :: Tgi.LAUNCH_FLAGS.

(** The [Model] object as [__enter__] builds it. *)
Definition tgi_self : Tgi.Model :=
  {| Tgi.launcher := spawn tgi_argv
   ; Tgi.client := {| Tgi.base_url := "http://127.0.0.1:8000"; Tgi.timeout := 60 |}
   ; Tgi.template := Tgi.TEMPLATE |}.

(** A run raises after exactly [n] connect attempts, for some number of
    loop iterations granted to it. *)
Definition raises_after {A : Type} (run : nat -> list event * outcome A) (n : nat)
  : Prop :=
  exists fuel e, snd (run fuel) = Raised e /\ attempts (fst (run fuel)) = n.

(** The [TextEmbeddingsInference] object as [__enter__] builds it. *)
Definition tei_self : Tei.TextEmbeddingsInference :=
  {| Tei.process := spawn tei_argv
   ; Tei.client := {| Tei.base_url := "http://127.0.0.1:8000" |} |}.

(** The one request [embed] is expected to send for a batch: a POST to
    [/embed] whose body holds the texts, and nothing else, under "inputs". *)
Definition embed_request (self : Tei.TextEmbeddingsInference)
    (batch : list (Z * string)) : Tei.http_request :=
  {| Tei.verb := "POST"
   ; Tei.url := (Tei.base_url (Tei.client self) ++ "/embed")%string
   ; Tei.body := JObj [("inputs", JArr (map JStr (map snd batch)))] |}.



(** An embedding server that answers 200 with one vector per input text. *)
Definition unit_vector : json := JArr [JNum 1 0; JNum 0 0].

Definition unit_server : Tei.upstream :=
  fun _ req =>
    {| Tei.status_code := 200
     ; Tei.content :=
         Some (JArr (match Tei.body req with
                     | JObj [(_, JArr inputs)] => map (fun _ => unit_vector) inputs
                     | _ => []
                     end)) |}.

(** An embedding server that answers 503 to everything. *)
Definition failing_server : Tei.upstream :=
  fun _ _ => {| Tei.status_code := 503; Tei.content := None |}.

(** [n] pairs with the identifiers [1 .. n]. *)
Definition numbered (n : nat) : list (Z * string) :=
  map (fun i => (Z.of_nat i, "text")) (seq 1 n).

(** The batch size as a divisor: [ceil(n / b)]. *)
Definition ceil_div (n b : nat) : nat := (n + b - 1) / b.

(** The prompt [generate] and [generate_stream] build for a question. *)
Definition prompt_of (question : string) : string :=
  ("<s>[INST] <<SYS>>" ++ Tgi.nl ++ Tgi.nl ++ "<</SYS>>" ++ Tgi.nl ++ Tgi.nl
     ++ question ++ " [/INST] ")%string.

(** The fragments a stream of responses is expected to deliver. *)
Definition non_special_texts (responses : list Tgi.StreamResponse) : list string :=
  map Tgi.text
    (filter (fun t => negb (Tgi.special t)) (map Tgi.token responses)).

(** A generation server that answers every prompt with itself and streams
    three tokens, the middle one special. *)
Definition echo_server : Tgi.upstream :=
  {| Tgi.on_generate := fun _ p _ => inr {| Tgi.generated_text := p |}
   ; Tgi.on_generate_stream := fun _ _ _ =>
       ([ {| Tgi.token := {| Tgi.id := 1; Tgi.text := "Hel"; Tgi.special := false |}
           ; Tgi.final_text := None |}
        ; {| Tgi.token := {| Tgi.id := 2; Tgi.text := "</s>"; Tgi.special := true |}
           ; Tgi.final_text := None |}
        ; {| Tgi.token := {| Tgi.id := 3; Tgi.text := "lo"; Tgi.special := false |}
           ; Tgi.final_text := Some "Hello" |} ], None) |}.

(** The bounds on the generated token count that reach the server when
    [generate] is called with [question]. *)
Definition bounds_sent (server : Tgi.upstream) (question : string) : list Z :=
  map Tgi.max_new_tokens (snd (run_proxy (Tgi.generate tgi_self server question) [])).

(** The caller of [generate] can have the bound [n] passed upstream. *)
Definition caller_can_bound (server : Tgi.upstream) (n : Z) : Prop :=
  exists question, In n (bounds_sent server question).

(** What ends the polling of a gate: the port accepts, the child is found
    exited with a code, or the connect fails in a way the gate does not
    catch. *)
Inductive decisive : Type :=
| Accepts
| Exits (code : Z)
| Breaks (msg : string).

(** Iteration [o] is decisive in the way [d]. *)
Definition decides (o : observation) (d : decisive) : Prop :=
  match d with
  | Accepts => connect o = Connected
  | Exits code => exited_unconnectable code o
  | Breaks msg => connect o = OtherFailure msg
  end.

(** The events of the decisive iteration and the outcome it gives. *)
Definition last_events (o : observation) (d : decisive) : list event :=
  match d with
  | Accepts =>
      [EvConnect "127.0.0.1" 8000 1 Connected; EvClose; EvPrint "Webserver ready!"]
  | Exits code => [probe o; EvPoll (Some code)]
  | Breaks _ => [probe o]
  end.

Definition verdict {A : Type} (a : A) (d : decisive) : outcome A :=
  match d with
  | Accepts => Returned a
  | Exits code => Raised (unexpected_exit code)
  | Breaks msg => Raised (OSError msg)
  end.

(** A port on which the connect fails at iteration [k] with an error the
    gates do not catch. *)
Definition breaks_at (k : nat) (msg : string) : environment :=
  fun i => {| connect := if i <? k then Timeout else OtherFailure msg
            ; child := Running |}.

Definition is_poll (ev : event) : bool :=
  match ev with EvPoll _ => true | _ => false end.

(** An outcome without the value it returns. *)
Definition forget {A : Type} (o : outcome A) : outcome unit :=
  match o with
  | StillPolling => StillPolling
  | Returned _ => Returned tt
  | Raised e => Raised e
  end.

(** The one call [generate_stream] makes upstream for a question. *)
Definition stream_call (question : string) : Tgi.generate_call :=
  {| Tgi.streaming := true
   ; Tgi.prompt := prompt_of question
   ; Tgi.max_new_tokens := 1024 |}.

(** How an iteration taken to the end of the upstream stream finishes. *)
Definition how_ended (ending : option exn) : Tgi.completion :=
  match ending with
  | None => Tgi.Completed
  | Some e => Tgi.Failed e
  end.

(** A generation server whose stream breaks after two tokens. *)
Definition breaking_server : Tgi.upstream :=
  {| Tgi.on_generate := fun _ _ _ => inl (ClientError "overloaded")
   ; Tgi.on_generate_stream := fun _ _ _ =>
       ([ {| Tgi.token := {| Tgi.id := 1; Tgi.text := "Hel"; Tgi.special := false |}
           ; Tgi.final_text := None |}
        ; {| Tgi.token := {| Tgi.id := 2; Tgi.text := "<s>"; Tgi.special := true |}
           ; Tgi.final_text := None |} ],
        Some (ClientError "connection reset")) |}.

(** No character of the string is a control character (line feed and
    carriage return included). *)
Definition no_control (s : string) : Prop :=
  Forall (fun c => 32 <= nat_of_ascii c) (list_ascii_of_string s).

Definition hex_value (c : ascii) : nat :=
  let n := nat_of_ascii c in
  if n <? 58 then n - 48 else n - 87.

(** Reading back what [escape] writes: each escape gives its character. *)
Fixpoint unescape (s : string) : option string :=
  match s with
  | EmptyString => Some EmptyString
  | String c rest =>
      if Ascii.eqb c backslash then
        match rest with
        | String x rest' =>
            if Ascii.eqb x "u" then
              match rest' with
              | String _ (String _ (String h (String l rest''))) =>
                  option_map (String (ascii_of_nat (16 * hex_value h + hex_value l)))
                    (unescape rest'')
              | _ => None
              end
            else
              option_map
                (String (if Ascii.eqb x "b" then ascii_of_nat 8
                         else if Ascii.eqb x "f" then ascii_of_nat 12
                         else if Ascii.eqb x "n" then ascii_of_nat 10
                         else if Ascii.eqb x "r" then ascii_of_nat 13
                         else if Ascii.eqb x "t" then ascii_of_nat 9
                         else x))
                (unescape rest')
        | EmptyString => None
        end
      else option_map (String c) (unescape rest)
  end.

(** The code points of a text written in ASCII. *)
Definition codepoints (s : string) : pystr :=
  map (fun c => N.of_nat (nat_of_ascii c)) (list_ascii_of_string s).

(** A text of [n] times the code point U+4E2D, which UTF-8 writes on three
    bytes. *)
Definition cjk_text (n : nat) : pystr := repeat 20013%N n.

(** A table of three rows, the second without a text. *)
Definition table_with_null : list (Z * option pystr) :=
  [(1%Z, Some (codepoints "first")); (2%Z, None); (3%Z, Some (codepoints "third"))].

(** A table of two rows, the texts of 200 and of 600 code points. *)
Definition table_cjk : list (Z * option pystr) :=
  [(1%Z, Some (cjk_text 200)); (2%Z, Some (cjk_text 600))].

(* ===================================================================== *)
(** ** The readiness gates *)
(* ===================================================================== *)

Section Gates.

Variable env : environment.

Lemma caught_cases (r : connect_result) :
  caught r = true -> r = Timeout \/ r = ConnectionRefused.
Proof. destruct r; simpl; intros H; try discriminate; auto. Qed.

Lemma poll_running (p : Popen) :
  returncode p = None -> poll Running p = (None, p).
Proof. unfold poll. intros ->. reflexivity. Qed.

Lemma poll_exited (p : Popen) (code : Z) :
  returncode p = None ->
  poll (Exited code) p = (Some code, {| args := args p; returncode := Some code |}).
Proof. unfold poll. intros ->. reflexivity. Qed.

(** One fruitless iteration of [spawn_server]. *)
Lemma spawn_server_loop_wait (fuel i : nat) (p : Popen) :
  returncode p = None ->
  waiting (env i) ->
  Tei.spawn_server_loop env (S fuel) i p =
    (probe (env i) :: EvPoll None :: fst (Tei.spawn_server_loop env fuel (S i) p),
     snd (Tei.spawn_server_loop env fuel (S i) p)).
Proof.
  intros Hp [Hc Hr]. cbn [Tei.spawn_server_loop].
  rewrite Hr, (poll_running _ Hp).
  destruct (Tei.spawn_server_loop env fuel (S i) p) as [tr out].
  destruct (caught_cases _ Hc) as [E | E]; unfold probe; rewrite E; reflexivity.
Qed.

(** [k] fruitless iterations of [spawn_server]. *)
Lemma spawn_server_loop_rounds (k fuel i : nat) (p : Popen) :
  returncode p = None ->
  (forall j, i <= j < i + k -> waiting (env j)) ->
  Tei.spawn_server_loop env (k + fuel) i p =
    (tei_rounds env i k ++ fst (Tei.spawn_server_loop env fuel (i + k) p),
     snd (Tei.spawn_server_loop env fuel (i + k) p)).
Proof.
  intros Hp. revert i. induction k as [|k IH]; intros i Hw.
  - rewrite Nat.add_0_r. simpl. now destruct (Tei.spawn_server_loop env fuel i p).
  - change (S k + fuel) with (S (k + fuel)).
    rewrite spawn_server_loop_wait by (auto; apply Hw; lia).
    rewrite IH by (intros j Hj; apply Hw; lia).
    replace (S i + k) with (i + S k) by lia. reflexivity.
Qed.

(** One fruitless call of [webserver_ready]. *)
Lemma webserver_ready_wait (o : observation) (self : Tgi.Model) :
  returncode (Tgi.launcher self) = None ->
  waiting o ->
  Tgi.webserver_ready o self = ([probe o; EvPoll None], self, inr false).
Proof.
  intros Hp [Hc Hr]. unfold Tgi.webserver_ready.
  rewrite Hr, (poll_running _ Hp). destruct self as [l c t].
  destruct (caught_cases _ Hc) as [E | E]; unfold probe; rewrite E; reflexivity.
Qed.

(** [k] fruitless iterations of the loop of [Model.__enter__]. *)
Lemma enter_loop_rounds (k fuel i : nat) (self : Tgi.Model) :
  returncode (Tgi.launcher self) = None ->
  (forall j, i <= j < i + k -> waiting (env j)) ->
  Tgi.enter_loop env (k + fuel) i self =
    (tgi_rounds env i k ++ fst (Tgi.enter_loop env fuel (i + k) self),
     snd (Tgi.enter_loop env fuel (i + k) self)).
Proof.
  intros Hp. revert i. induction k as [|k IH]; intros i Hw.
  - rewrite Nat.add_0_r. simpl. now destruct (Tgi.enter_loop env fuel i self).
  - change (S k + fuel) with (S (k + fuel)). cbn [Tgi.enter_loop].
    rewrite webserver_ready_wait by (auto; apply Hw; lia).
    rewrite IH by (intros j Hj; apply Hw; lia).
    replace (S i + k) with (i + S k) by lia.
    destruct (Tgi.enter_loop env fuel (i + S k) self) as [tr out]. reflexivity.
Qed.

Lemma count_app (kind : event -> bool) (tr1 tr2 : list event) :
  count kind (tr1 ++ tr2) = count kind tr1 + count kind tr2.
Proof. unfold count. now rewrite filter_app, length_app. Qed.

Lemma attempts_tei_rounds (i k : nat) : attempts (tei_rounds env i k) = k.
Proof.
  revert i. induction k as [|k IH]; intros i; [reflexivity|].
  unfold attempts, tei_rounds in *. cbn [seq flat_map].
  rewrite count_app, IH. reflexivity.
Qed.

Lemma attempts_tgi_rounds (i k : nat) : attempts (tgi_rounds env i k) = k.
Proof.
  revert i. induction k as [|k IH]; intros i; [reflexivity|].
  unfold attempts, tgi_rounds in *. cbn [seq flat_map].
  rewrite count_app, IH. reflexivity.
Qed.

(** Fruitless iterations hold no successful connect and no close. *)
Lemma quiet_tei_rounds (i k : nat) :
  (forall j, i <= j < i + k -> waiting (env j)) ->
  count is_successful_connect (tei_rounds env i k) = 0
  /\ count is_close (tei_rounds env i k) = 0.
Proof.
  revert i. induction k as [|k IH]; intros i Hw; [split; reflexivity|].
  unfold tei_rounds in *. cbn [seq flat_map]. rewrite !count_app.
  destruct (IH (S i)) as [IH1 IH2]; [intros j Hj; apply Hw; lia|].
  rewrite IH1, IH2. destruct (Hw i) as [Hc _]; [lia|].
  unfold probe. destruct (caught_cases _ Hc) as [E | E]; rewrite E; split; reflexivity.
Qed.

Lemma quiet_tgi_rounds (i k : nat) :
  (forall j, i <= j < i + k -> waiting (env j)) ->
  count is_successful_connect (tgi_rounds env i k) = 0
  /\ count is_close (tgi_rounds env i k) = 0.
Proof.
  revert i. induction k as [|k IH]; intros i Hw; [split; reflexivity|].
  unfold tgi_rounds in *. cbn [seq flat_map]. rewrite !count_app.
  destruct (IH (S i)) as [IH1 IH2]; [intros j Hj; apply Hw; lia|].
  rewrite IH1, IH2. destruct (Hw i) as [Hc _]; [lia|].
  unfold probe. destruct (caught_cases _ Hc) as [E | E]; rewrite E; split; reflexivity.
Qed.

Lemma sleeps_tgi_rounds (i k : nat) : count is_sleep (tgi_rounds env i k) = k.
Proof.
  revert i. induction k as [|k IH]; intros i; [reflexivity|].
  unfold tgi_rounds in *. cbn [seq flat_map]. rewrite count_app, IH. reflexivity.
Qed.

(** With no listener and a running child at every iteration, the loops
    are still polling whatever the number of iterations granted. *)
Lemma spawn_server_polls_forever (fuel : nat) :
  (forall j, waiting (env j)) ->
  Tei.spawn_server env fuel = (EvSpawn tei_argv :: tei_rounds env 0 fuel, StillPolling).
Proof.
  intros Hw. unfold Tei.spawn_server.
  rewrite <- (Nat.add_0_r fuel) at 1.
  rewrite spawn_server_loop_rounds by (auto; reflexivity).
  cbn [Tei.spawn_server_loop fst snd]. now rewrite app_nil_r.
Qed.

Lemma enter_polls_forever (fuel : nat) :
  (forall j, waiting (env j)) ->
  Tgi.__enter__ env fuel = (EvSpawn tgi_argv :: tgi_rounds env 0 fuel, StillPolling).
Proof.
  intros Hw. unfold Tgi.__enter__.
  rewrite <- (Nat.add_0_r fuel) at 1.
  rewrite enter_loop_rounds by (auto; reflexivity).
  cbn [Tgi.enter_loop fst snd]. now rewrite app_nil_r.
Qed.

(** The exit code can be read back from the error the gates raise. *)
Lemma str_of_int_inj (a b : Z) : str_of_int a = str_of_int b -> a = b.
Proof.
  unfold str_of_int. intros H. apply DecimalZ.to_int_inj.
  assert (Hnil : forall n, Z.to_int n <> Decimal.Pos Decimal.Nil
                           /\ Z.to_int n <> Decimal.Neg Decimal.Nil).
  { intros [|p|p]; simpl; split; try discriminate;
      intros E; injection E as E; revert E; apply Unsigned.to_uint_nonnil. }
  destruct (Hnil a) as [Ha1 Ha2], (Hnil b) as [Hb1 Hb2].
  pose proof (NilZero.isi _ Ha1 Ha2) as Ea.
  pose proof (NilZero.isi _ Hb1 Hb2) as Eb.
  rewrite H in Ea. congruence.
Qed.

Lemma unexpected_exit_inj (a b : Z) :
  unexpected_exit a = unexpected_exit b -> a = b.
Proof.
  unfold unexpected_exit. intros H. injection H as H.
  now apply str_of_int_inj.
Qed.

End Gates.

(** C2.  A child that exits with code [code] before the port accepts
    connections: while the child runs the iterations [0 .. k-1] find no
    listener, and iteration [k], the first one after the exit, finds the
    port still closed and the child exited.  Both gates stop in that very
    iteration, after [k + 1] connect attempts and one poll that returns the
    code, and raise the [RuntimeError] whose message carries the code (the
    code can be read back from it); no further attempt is made however many
    iterations the loop is granted. *)
Theorem gate_reports_exit_code (env : environment) (k : nat) (code : Z) (fuel : nat) :
  (forall j, j < k -> waiting (env j)) ->
  exited_unconnectable code (env k) ->
  k < fuel ->
  Tei.spawn_server env fuel =
    (EvSpawn tei_argv :: tei_rounds env 0 k ++ [probe (env k); EvPoll (Some code)],
     Raised (unexpected_exit code))
  /\ Tgi.__enter__ env fuel =
    (EvSpawn tgi_argv :: tgi_rounds env 0 k ++ [probe (env k); EvPoll (Some code)],
     Raised (unexpected_exit code))
  /\ attempts (fst (Tei.spawn_server env fuel)) = S k
  /\ attempts (fst (Tgi.__enter__ env fuel)) = S k
  /\ (forall code', unexpected_exit code' = unexpected_exit code -> code' = code).
Proof.
  intros Hw [Hc Hx] Hk.
  assert (Htei : Tei.spawn_server env fuel =
    (EvSpawn tei_argv :: tei_rounds env 0 k ++ [probe (env k); EvPoll (Some code)],
     Raised (unexpected_exit code))).
  { unfold Tei.spawn_server. replace fuel with (k + S (fuel - S k)) by lia.
    rewrite spawn_server_loop_rounds by (auto; intros j Hj; apply Hw; lia).
    cbn [Nat.add Tei.spawn_server_loop]. rewrite Hx, poll_exited by reflexivity.
    unfold probe.
    destruct (caught_cases _ Hc) as [E | E]; rewrite E; reflexivity. }
  assert (Htgi : Tgi.__enter__ env fuel =
    (EvSpawn tgi_argv :: tgi_rounds env 0 k ++ [probe (env k); EvPoll (Some code)],
     Raised (unexpected_exit code))).
  { unfold Tgi.__enter__. replace fuel with (k + S (fuel - S k)) by lia.
    rewrite enter_loop_rounds by (auto; intros j Hj; apply Hw; lia).
    cbn [Nat.add Tgi.enter_loop]. unfold Tgi.webserver_ready.
    rewrite Hx, poll_exited by reflexivity. unfold probe.
    destruct (caught_cases _ Hc) as [E | E]; rewrite E; reflexivity. }
  rewrite Htei, Htgi. cbn [fst]. repeat split.
  - unfold attempts.
    change (EvSpawn tei_argv :: ?t) with ([EvSpawn tei_argv] ++ t).
    rewrite !count_app. fold (attempts (tei_rounds env 0 k)).
    rewrite attempts_tei_rounds. cbn. lia.
  - unfold attempts.
    change (EvSpawn tgi_argv :: ?t) with ([EvSpawn tgi_argv] ++ t).
    rewrite !count_app. fold (attempts (tgi_rounds env 0 k)).
    rewrite attempts_tgi_rounds. cbn. lia.
  - intros code'. apply unexpected_exit_inj.
Qed.

(** C2 at a child that is seen running twice and exited with code 1 at the
    third attempt. *)
Lemma gate_reports_exit_code_witness :
  snd (Tei.spawn_server (exits_at 2 1) 7) = Raised (unexpected_exit 1)
  /\ snd (Tgi.__enter__ (exits_at 2 1) 7) = Raised (unexpected_exit 1)
  /\ attempts (fst (Tei.spawn_server (exits_at 2 1) 7)) = 3.
Proof.
  assert (Hw : forall j, j < 2 -> waiting (exits_at 2 1 j)).
  { intros j Hj. destruct j as [|[|j]]; [split; reflexivity | split; reflexivity | lia]. }
  assert (Hx : exited_unconnectable 1 (exits_at 2 1 2)) by (split; reflexivity).
  assert (Hk : 2 < 7) by lia.
  destruct (@gate_reports_exit_code (exits_at 2 1) 2 1%Z 7 Hw Hx Hk) as (H1 & H2 & H3 & _).
  rewrite H1, H2. split; [reflexivity | split; [reflexivity | reflexivity]].
Defined.

(** C3, as the code has it.  If the subprocess never opens the port and
    never exits, both gates poll forever without raising: whatever the number
    [fuel] of iterations, the loop has made [fuel] connect attempts and is
    still polling.  The gates take no overall timeout, so this holds for
    every number of attempts, five included. *)
Theorem gate_polls_forever (env : environment) (fuel : nat) :
  (forall j, waiting (env j)) ->
  Tei.spawn_server env fuel = (EvSpawn tei_argv :: tei_rounds env 0 fuel, StillPolling)
  /\ Tgi.__enter__ env fuel = (EvSpawn tgi_argv :: tgi_rounds env 0 fuel, StillPolling)
  /\ attempts (fst (Tei.spawn_server env fuel)) = fuel
  /\ attempts (fst (Tgi.__enter__ env fuel)) = fuel.
Proof.
  intros Hw.
  rewrite (@spawn_server_polls_forever env fuel Hw), (@enter_polls_forever env fuel Hw).
  cbn [fst]. repeat split.
  - apply (attempts_tei_rounds env 0 fuel).
  - apply (attempts_tgi_rounds env 0 fuel).
Qed.

(** C3 at the subprocess that hangs, after nine iterations. *)
Lemma gate_polls_forever_witness :
  snd (Tei.spawn_server hanging 9) = StillPolling
  /\ snd (Tgi.__enter__ hanging 9) = StillPolling
  /\ attempts (fst (Tgi.__enter__ hanging 9)) = 9.
Proof.
  assert (Hw : forall j, waiting (hanging j)) by (intros j; split; reflexivity).
  destruct (@gate_polls_forever hanging 9 Hw) as (H1 & H2 & _ & H4).
  rewrite H1, H2. split; [reflexivity | split; [reflexivity | reflexivity]].
Defined.

(** C3 as stated fails: on the subprocess that hangs, neither gate raises
    after exactly five attempts; each goes on to a sixth. *)
Lemma gate_never_times_out :
  ~ raises_after (Tei.spawn_server hanging) 5
  /\ ~ raises_after (Tgi.__enter__ hanging) 5
  /\ attempts (fst (Tei.spawn_server hanging 6)) = 6
  /\ attempts (fst (Tgi.__enter__ hanging 6)) = 6.
Proof.
  assert (Hw : forall j, waiting (hanging j)) by (intros j; split; reflexivity).
  repeat split.
  - intros (fuel & e & He & _).
    rewrite (@spawn_server_polls_forever hanging fuel Hw) in He. discriminate He.
  - intros (fuel & e & He & _).
    rewrite (@enter_polls_forever hanging fuel Hw) in He. discriminate He.
Qed.

(** C6.  A port that accepts the connection at iteration [k], after [k]
    iterations that found no listener and a running child: both gates close
    the probe connection of that first successful connect, print, and return
    (the handle is ready) after [k + 1] attempts.  The trace holds exactly
    one successful connect and one close and ends with them; it is the same
    for every larger number of iterations granted, so nothing is probed
    after the return. *)
Theorem gate_ready_once (env : environment) (k fuel : nat) :
  (forall j, j < k -> waiting (env j)) ->
  connect (env k) = Connected ->
  k < fuel ->
  Tei.spawn_server env fuel =
    (EvSpawn tei_argv :: tei_rounds env 0 k
       ++ [EvConnect "127.0.0.1" 8000 1 Connected; EvClose; EvPrint "Webserver ready!"],
     Returned (spawn tei_argv))
  /\ Tgi.__enter__ env fuel =
    (EvSpawn tgi_argv :: tgi_rounds env 0 k
       ++ [EvConnect "127.0.0.1" 8000 1 Connected; EvClose; EvPrint "Webserver ready!"],
     Returned tgi_self)
  /\ (forall tr, tr = fst (Tei.spawn_server env fuel) \/ tr = fst (Tgi.__enter__ env fuel) ->
      count is_successful_connect tr = 1 /\ count is_close tr = 1 /\ attempts tr = S k).
Proof.
  intros Hw Hc Hk.
  assert (Htei : Tei.spawn_server env fuel =
    (EvSpawn tei_argv :: tei_rounds env 0 k
       ++ [EvConnect "127.0.0.1" 8000 1 Connected; EvClose; EvPrint "Webserver ready!"],
     Returned (spawn tei_argv))).
  { unfold Tei.spawn_server. replace fuel with (k + S (fuel - S k)) by lia.
    rewrite spawn_server_loop_rounds by (auto; intros j Hj; apply Hw; lia).
    cbn [Nat.add Tei.spawn_server_loop]. rewrite Hc. reflexivity. }
  assert (Htgi : Tgi.__enter__ env fuel =
    (EvSpawn tgi_argv :: tgi_rounds env 0 k
       ++ [EvConnect "127.0.0.1" 8000 1 Connected; EvClose; EvPrint "Webserver ready!"],
     Returned tgi_self)).
  { unfold Tgi.__enter__. replace fuel with (k + S (fuel - S k)) by lia.
    rewrite enter_loop_rounds by (auto; intros j Hj; apply Hw; lia).
    cbn [Nat.add Tgi.enter_loop]. unfold Tgi.webserver_ready. rewrite Hc. reflexivity. }
  split; [exact Htei | split; [exact Htgi |]].
  assert (Hw0 : forall j, 0 <= j < 0 + k -> waiting (env j))
    by (intros j Hj; apply Hw; lia).
  intros tr [-> | ->]; [rewrite Htei | rewrite Htgi]; cbn [fst].
  - change (EvSpawn tei_argv :: ?t) with ([EvSpawn tei_argv] ++ t).
    unfold attempts. rewrite !count_app.
    destruct (@quiet_tei_rounds env 0 k Hw0) as [-> ->].
    fold (attempts (tei_rounds env 0 k)). rewrite attempts_tei_rounds.
    cbn. repeat split; lia.
  - change (EvSpawn tgi_argv :: ?t) with ([EvSpawn tgi_argv] ++ t).
    unfold attempts. rewrite !count_app.
    destruct (@quiet_tgi_rounds env 0 k Hw0) as [-> ->].
    fold (attempts (tgi_rounds env 0 k)). rewrite attempts_tgi_rounds.
    cbn. repeat split; lia.
Qed.

(** C6 at a port that accepts the fourth attempt. *)
Lemma gate_ready_once_witness :
  snd (Tei.spawn_server (ready_at 3) 10) = Returned (spawn tei_argv)
  /\ snd (Tgi.__enter__ (ready_at 3) 10) = Returned tgi_self
  /\ attempts (fst (Tgi.__enter__ (ready_at 3) 10)) = 4.
Proof.
  assert (Hw : forall j, j < 3 -> waiting (ready_at 3 j)).
  { intros j Hj.
    destruct j as [|[|[|j]]];
      [split; reflexivity | split; reflexivity | split; reflexivity | lia]. }
  assert (Hc : connect (ready_at 3 3) = Connected) by reflexivity.
  assert (Hk : 3 < 10) by lia.
  destruct (@gate_ready_once (ready_at 3) 3 10 Hw Hc Hk) as (H1 & H2 & H3).
  rewrite H1, H2. split; [reflexivity | split; [reflexivity | reflexivity]].
Defined.

(* ===================================================================== *)
(** ** The lifecycle hook *)
(* ===================================================================== *)

Lemma terminate_signals (child : child_state) (p : Popen) :
  fst (terminate child p) = [] \/ fst (terminate child p) = [SIGTERM].
Proof.
  unfold terminate, send_signal, poll.
  destruct (returncode p); [left; reflexivity|].
  destruct child; [right | left]; reflexivity.
Qed.

Lemma terminate_running (p : Popen) :
  returncode p = None -> terminate Running p = ([SIGTERM], p).
Proof. intros H. unfold terminate, send_signal. now rewrite poll_running. Qed.

Lemma terminate_reaped (child : child_state) (p : Popen) (code : Z) :
  returncode p = Some code -> terminate child p = ([], p).
Proof. intros H. unfold terminate, send_signal, poll. now rewrite H. Qed.

Lemma terminate_exited (p : Popen) (code : Z) :
  fst (terminate (Exited code) p) = []
  /\ exists code', returncode (snd (terminate (Exited code) p)) = Some code'.
Proof.
  unfold terminate, send_signal, poll.
  destruct (returncode p) as [c|] eqn:E; cbn; split; eauto.
Qed.

(** C9.  [__exit__] of either class calls [terminate] on the subprocess
    whatever the state: the only signal it ever delivers is SIGTERM, never
    SIGKILL, and a child that is running gets exactly one.  On a handle whose
    process has terminated it is a no-op: when the return code has been
    collected nothing changes at all; when the child has exited no signal is
    sent, and a second [__exit__] changes nothing. *)
Theorem exit_terminates_gracefully (child : child_state)
    (tei : Tei.TextEmbeddingsInference) (tgi : Tgi.Model) :
  (fst (Tei.__exit__ child tei) = [] \/ fst (Tei.__exit__ child tei) = [SIGTERM])
  /\ (fst (Tgi.__exit__ child tgi) = [] \/ fst (Tgi.__exit__ child tgi) = [SIGTERM])
  /\ (returncode (Tei.process tei) = None -> Tei.__exit__ Running tei = ([SIGTERM], tei))
  /\ (returncode (Tgi.launcher tgi) = None -> Tgi.__exit__ Running tgi = ([SIGTERM], tgi))
  /\ (forall code, returncode (Tei.process tei) = Some code ->
        Tei.__exit__ child tei = ([], tei))
  /\ (forall code, returncode (Tgi.launcher tgi) = Some code ->
        Tgi.__exit__ child tgi = ([], tgi))
  /\ (forall code,
        fst (Tei.__exit__ (Exited code) tei) = []
        /\ Tei.__exit__ child (snd (Tei.__exit__ (Exited code) tei))
           = ([], snd (Tei.__exit__ (Exited code) tei)))
  /\ (forall code,
        fst (Tgi.__exit__ (Exited code) tgi) = []
        /\ Tgi.__exit__ child (snd (Tgi.__exit__ (Exited code) tgi))
           = ([], snd (Tgi.__exit__ (Exited code) tgi))).
Proof.
  destruct tei as [p c], tgi as [l cl t].
  unfold Tei.__exit__, Tgi.__exit__. cbn [Tei.process Tei.client Tgi.launcher Tgi.client Tgi.template].
  repeat split.
  - destruct (terminate_signals child p) as [H | H];
      destruct (terminate child p) as [sigs p']; cbn in *; auto.
  - destruct (terminate_signals child l) as [H | H];
      destruct (terminate child l) as [sigs l']; cbn in *; auto.
  - intros H. now rewrite terminate_running.
  - intros H. now rewrite terminate_running.
  - intros code H. now rewrite (terminate_reaped child p H).
  - intros code H. now rewrite (terminate_reaped child l H).
  - destruct (terminate_exited p code) as [H _].
    destruct (terminate (Exited code) p); cbn in *; auto.
  - destruct (terminate_exited p code) as [_ [code' H]].
    destruct (terminate (Exited code) p) as [sigs p']; cbn in *.
    now rewrite (terminate_reaped child p' H).
  - destruct (terminate_exited l code) as [H _].
    destruct (terminate (Exited code) l); cbn in *; auto.
  - destruct (terminate_exited l code) as [_ [code' H]].
    destruct (terminate (Exited code) l) as [sigs l']; cbn in *.
    now rewrite (terminate_reaped child l' H).
Qed.

(** C9 at the two objects as [__enter__] builds them, the child running. *)
Lemma exit_terminates_gracefully_witness :
  Tei.__exit__ Running tei_self = ([SIGTERM], tei_self)
  /\ Tgi.__exit__ Running tgi_self = ([SIGTERM], tgi_self)
  /\ fst (Tei.__exit__ (Exited 0) tei_self) = [].
Proof.
  destruct (exit_terminates_gracefully Running tei_self tgi_self)
    as (_ & _ & H3 & H4 & _ & _ & H7 & _).
  split; [apply H3; reflexivity | split; [apply H4; reflexivity | apply (H7 0%Z)]].
Defined.

(* ===================================================================== *)
(** ** The embedding proxy *)
(* ===================================================================== *)

Lemma split_as_maps (A B : Type) (l : list (A * B)) :
  split l = (map fst l, map snd l).
Proof.
  induction l as [|[a b] l IH]; [reflexivity|].
  cbn [split map fst snd]. now rewrite IH.
Qed.

(** What one call of [embed] on a batch that is not empty does: it sends
    the one request, then fails on a bad status or an undecodable body, or
    pairs the identifiers with what the body holds. *)
Lemma embed_run (self : Tei.TextEmbeddingsInference) (server : Tei.upstream)
    (batch : list (Z * string)) (log : list Tei.http_request) :
  batch <> [] ->
  run_proxy (Tei.embed self server batch) log =
    (let resp := server log (embed_request self batch) in
     if Tei.is_success resp
     then match Tei.content resp with
          | Some outputs => Tei.py_zip (map fst batch) outputs
          | None => inl JSONDecodeError
          end
     else inl (HTTPStatusError (Tei.status_code resp)),
     log ++ [embed_request self batch]).
Proof.
  intros Hne. destruct batch as [|pair rest]; [contradiction|].
  unfold Tei.embed, Tei.unpack_pairs, run_proxy.
  rewrite split_as_maps. unfold embed_request.
  cbn -[map Tei.is_success Tei.py_zip Tei.raise_for_status Tei.resp_json].
  unfold Tei.raise_for_status, Tei.resp_json.
  destruct (Tei.is_success _); cbn -[map Tei.py_zip]; [|reflexivity].
  destruct (Tei.content _) as [outputs|]; cbn -[map Tei.py_zip]; [|reflexivity].
  destruct (Tei.py_zip _ outputs); reflexivity.
Qed.


(** C10.  On the empty sequence [embed] raises the [ValueError] of the
    unpacking and the log of requests is left as it was: no request, and in
    particular none with an empty list of inputs, reaches the server. *)
Theorem embed_empty_raises_before_request (self : Tei.TextEmbeddingsInference)
    (server : Tei.upstream) (log : list Tei.http_request) :
  run_proxy (Tei.embed self server []) log =
    (inl (ValueError "not enough values to unpack (expected 2, got 0)"), log).
Proof. reflexivity. Qed.





(** C8.  For a batch that is not empty, [embed] sends exactly one request
    whatever the status of the answer, and when that status is not a success
    it raises the status error without sending anything more. *)
Theorem embed_fails_without_retry (self : Tei.TextEmbeddingsInference)
    (server : Tei.upstream) (batch : list (Z * string))
    (log : list Tei.http_request) :
  batch <> [] ->
  snd (run_proxy (Tei.embed self server batch) log) = log ++ [embed_request self batch]
  /\ (Tei.is_success (server log (embed_request self batch)) = false ->
      run_proxy (Tei.embed self server batch) log =
        (inl (HTTPStatusError (Tei.status_code (server log (embed_request self batch)))),
         log ++ [embed_request self batch])).
Proof.
  intros Hne. rewrite embed_run by assumption. split; [reflexivity|].
  intros Hbad. cbn zeta. now rewrite Hbad.
Qed.

(** C8 on a one-pair batch against the server that answers 503. *)
Lemma embed_fails_without_retry_witness :
  run_proxy (Tei.embed tei_self failing_server [(1%Z, "a")]) [] =
    (inl (HTTPStatusError 503), [embed_request tei_self [(1%Z, "a")]]).
Proof.
  assert (Hne : [(1%Z, "a")] <> @nil (Z * string)) by discriminate.
  destruct (@embed_fails_without_retry tei_self failing_server [(1%Z, "a")] [] Hne)
    as [_ H].
  exact (H eq_refl).
Defined.

(* ===================================================================== *)
(** ** Batching in [embed_dataset] *)
(* ===================================================================== *)

(** The generator yields a batch each time the list being filled reaches
    the batch size, and what is left in it when the data ends is never
    yielded: [floor] of the count in batches, covering a prefix of the data. *)
Lemma generate_batches_loop_spec (batch_size : nat) (data batch : list (Z * string)) :
  0 < batch_size ->
  List.length batch < batch_size ->
  List.length (Tei.generate_batches_loop batch_size batch data)
    = (List.length batch + List.length data) / batch_size
  /\ List.concat (Tei.generate_batches_loop batch_size batch data)
    = firstn (batch_size * ((List.length batch + List.length data) / batch_size))
        (batch ++ data).
Proof.
  intros HB. revert batch. induction data as [|item rest IH]; intros batch Hlt.
  - cbn [Tei.generate_batches_loop List.length List.concat].
    rewrite Nat.add_0_r, Nat.div_small, Nat.mul_0_r by assumption.
    split; reflexivity.
  - cbn [Tei.generate_batches_loop].
    assert (Hlen : List.length (batch ++ [item]) = S (List.length batch))
      by (rewrite length_app; cbn; lia).
    replace (batch ++ item :: rest) with ((batch ++ [item]) ++ rest)
      by (now rewrite <- app_assoc).
    destruct (Nat.eqb_spec (List.length (batch ++ [item])) batch_size) as [Heq | Hneq].
    + destruct (IH [] HB) as [IH1 IH2].
      cbn [List.length Nat.add app] in IH1, IH2.
      replace (List.length batch + List.length (item :: rest))
        with (1 * batch_size + List.length rest) by (cbn [List.length]; lia).
      rewrite Nat.div_add_l by lia.
      cbn [List.length List.concat]. rewrite IH1, IH2. split; [reflexivity|].
      replace (batch_size * (1 + List.length rest / batch_size))
        with (List.length (batch ++ [item]) + batch_size * (List.length rest / batch_size))
        by lia.
      now rewrite firstn_app_2.
    + destruct (IH (batch ++ [item])) as [IH1 IH2]; [lia|].
      replace (List.length batch + List.length (item :: rest))
        with (List.length (batch ++ [item]) + List.length rest)
        by (cbn [List.length]; lia).
      split; assumption.
Qed.

Lemma generate_batches_of_spec (batch_size : nat) (data : list (Z * string)) :
  0 < batch_size ->
  List.length (Tei.generate_batches_of batch_size data) = List.length data / batch_size
  /\ List.concat (Tei.generate_batches_of batch_size data)
     = firstn (batch_size * (List.length data / batch_size)) data.
Proof.
  intros HB. unfold Tei.generate_batches_of.
  apply (@generate_batches_loop_spec batch_size data [] HB HB).
Qed.

(** Whenever the batch size does not divide the number of pairs, fewer
    batches than [ceil] of the quotient are produced. *)
Lemma generate_batches_short (batch_size : nat) (data : list (Z * string)) :
  0 < batch_size ->
  List.length data mod batch_size <> 0 ->
  S (List.length (Tei.generate_batches_of batch_size data))
    = ceil_div (List.length data) batch_size.
Proof.
  intros HB Hmod.
  destruct (generate_batches_of_spec data HB) as [-> _].
  unfold ceil_div.
  pose proof (Nat.div_mod_eq (List.length data) batch_size) as E.
  pose proof (Nat.mod_upper_bound (List.length data) batch_size ltac:(lia)) as Hub.
  set (q := List.length data / batch_size) in *.
  set (r := List.length data mod batch_size) in *.
  replace (List.length data + batch_size - 1) with ((S q) * batch_size + (r - 1)) by nia.
  rewrite Nat.div_add_l by lia.
  rewrite Nat.div_small by lia. lia.
Qed.

(** C1, on the code.  With the batch size 32 of the script and 33 pairs,
    [embed_dataset] makes one upstream call where [ceil(33/32)] is 2, the
    results hold the identifiers 1 to 32 and identifier 33 is in none of
    them; a single pair is never sent at all; and with the batch size 2 of
    the example the loop yields the batch of "a" and "b" and never the batch
    of "c". *)
Theorem embed_dataset_drops_last_batch :
  (exists outputs,
     run_proxy (Tei.embed_dataset tei_self unit_server (numbered 33)) []
       = (inr outputs, [embed_request tei_self (numbered 32)])
     /\ map fst (List.concat outputs) = map fst (numbered 32)
     /\ ~ In 33%Z (map fst (List.concat outputs)))
  /\ ceil_div 33 Tei.BATCH_SIZE = 2
  /\ run_proxy (Tei.embed_dataset tei_self unit_server [(1%Z, "a")]) [] = (inr [], [])
  /\ ceil_div 1 Tei.BATCH_SIZE = 1
  /\ Tei.generate_batches_of 2 [(1%Z, "a"); (2%Z, "b"); (3%Z, "c")]
     = [[(1%Z, "a"); (2%Z, "b")]]
  /\ snd (run_proxy (Tei.embed_dataset_of 2 tei_self unit_server
                       [(1%Z, "a"); (2%Z, "b"); (3%Z, "c")]) [])
     = [embed_request tei_self [(1%Z, "a"); (2%Z, "b")]].
Proof.
  split; [|repeat split].
  eexists. split; [vm_compute; reflexivity|]. split; [vm_compute; reflexivity|].
  vm_compute. intros H.
  repeat (destruct H as [H | H]; [discriminate H|]). exact H.
Qed.

(* ===================================================================== *)
(** ** The generation proxy *)
(* ===================================================================== *)

(** The template of [__enter__], formatted with an empty system prompt. *)
Lemma format_prompt (question : string) :
  str_format Tgi.TEMPLATE [("system", ""); ("user", question)]
    = inr (prompt_of question).
Proof. vm_compute. reflexivity. Qed.

(** What one call of [generate] does. *)
Lemma generate_run (self : Tgi.Model) (server : Tgi.upstream) (question : string)
    (log : list Tgi.generate_call) :
  Tgi.template self = Tgi.TEMPLATE ->
  run_proxy (Tgi.generate self server question) log =
    (match Tgi.on_generate server log (prompt_of question) 1024 with
     | inl e => inl e
     | inr result => inr (Tgi.generated_text result)
     end,
     log ++ [{| Tgi.streaming := false
              ; Tgi.prompt := prompt_of question
              ; Tgi.max_new_tokens := 1024 |}]).
Proof.
  intros Ht. unfold Tgi.generate, run_proxy. rewrite Ht, format_prompt.
  unfold Tgi.client_generate.
  cbn -[prompt_of].
  destruct (Tgi.on_generate server log (prompt_of question) 1024); reflexivity.
Qed.

(** C4, as the code has it.  [generate] makes one upstream [generate] call
    with the templated question and the bound 1024 on the generated tokens,
    which is fixed in the method (the caller passes the question only), and
    returns the whole generated text of the answer once the call completes;
    an error of the call is passed on. *)
Theorem generate_returns_text_with_fixed_bound (self : Tgi.Model)
    (server : Tgi.upstream) (question : string) (log : list Tgi.generate_call) :
  Tgi.template self = Tgi.TEMPLATE ->
  snd (run_proxy (Tgi.generate self server question) log)
    = log ++ [{| Tgi.streaming := false
               ; Tgi.prompt := prompt_of question
               ; Tgi.max_new_tokens := 1024 |}]
  /\ (forall result,
        Tgi.on_generate server log (prompt_of question) 1024 = inr result ->
        fst (run_proxy (Tgi.generate self server question) log)
          = inr (Tgi.generated_text result))
  /\ (forall e,
        Tgi.on_generate server log (prompt_of question) 1024 = inl e ->
        fst (run_proxy (Tgi.generate self server question) log) = inl e).
Proof.
  intros Ht. rewrite (@generate_run self server question log Ht). cbn [fst snd].
  split; [reflexivity|]. split.
  - intros result ->. reflexivity.
  - intros e ->. reflexivity.
Qed.

(** C4 on the question "hi" against the server that echoes the prompt. *)
Lemma generate_returns_text_with_fixed_bound_witness :
  run_proxy (Tgi.generate tgi_self echo_server "hi") []
    = (inr (prompt_of "hi"),
       [{| Tgi.streaming := false
         ; Tgi.prompt := prompt_of "hi"
         ; Tgi.max_new_tokens := 1024 |}]).
Proof.
  destruct (@generate_returns_text_with_fixed_bound tgi_self echo_server "hi" [] eq_refl)
    as (H1 & H2 & _).
  specialize (H2 {| Tgi.generated_text := prompt_of "hi" |} eq_refl).
  rewrite (surjective_pairing (run_proxy (Tgi.generate tgi_self echo_server "hi") [])).
  rewrite H1, H2. reflexivity.
Defined.

(** C4 as stated fails: the bound is not the caller's to choose.  Whatever
    the question, 512 is never the bound that reaches the server, while
    1024 is, for the question "hi". *)
Lemma generate_bound_not_caller_specified :
  ~ caller_can_bound echo_server 512
  /\ bounds_sent echo_server "hi" = [1024%Z].
Proof.
  split; [|reflexivity].
  intros [question Hin]. unfold bounds_sent in Hin.
  rewrite (@generate_run tgi_self echo_server question [] eq_refl) in Hin.
  cbn in Hin. destruct Hin as [H | []]. discriminate H.
Qed.

(** Resuming the generator skips special tokens: the consumer sees the
    same whether they are ahead or not. *)
Lemma consume_streaming (self : Tgi.Model) (server : Tgi.upstream)
    (rest : list Tgi.StreamResponse) (log : list Tgi.generate_call) (fuel : nat) :
  List.length rest < fuel ->
  Tgi.consume self server fuel (Tgi.Streaming rest None) log
    = (non_special_texts rest, Tgi.Completed, log).
Proof.
  revert fuel. induction rest as [|r rest IH]; intros fuel Hlt.
  - destruct fuel as [|fuel]; [inversion Hlt | reflexivity].
  - destruct fuel as [|fuel]; [inversion Hlt|].
    cbn [List.length] in Hlt.
    unfold non_special_texts. cbn [map filter].
    destruct (Tgi.special (Tgi.token r)) eqn:Hs; cbn [negb].
    + assert (Hstep : Tgi.consume self server (S fuel) (Tgi.Streaming (r :: rest) None) log
                      = Tgi.consume self server (S fuel) (Tgi.Streaming rest None) log).
      { cbn [Tgi.consume Tgi.anext Tgi.resume]. now rewrite Hs. }
      rewrite Hstep. apply IH. lia.
    + cbn [Tgi.consume Tgi.anext Tgi.resume]. rewrite Hs. cbn [negb].
      rewrite IH by lia. reflexivity.
Qed.

Lemma all_special_no_texts (responses : list Tgi.StreamResponse) :
  Forall (fun r => Tgi.special (Tgi.token r) = true) responses ->
  non_special_texts responses = [].
Proof.
  unfold non_special_texts.
  induction 1 as [|r rest Hr Hall IH]; [reflexivity|].
  cbn [map filter]. rewrite Hr. cbn [negb]. exact IH.
Qed.

(** C5.  When the upstream stream of a [generate_stream] call emits
    [responses] and then closes, a consumer that iterates to the end
    receives exactly the texts of the tokens that are not special, in the
    order of emission, and the iteration then ends normally; one upstream
    call has been made.  If every token is special nothing is delivered. *)
Theorem stream_delivers_non_special_texts (self : Tgi.Model)
    (server : Tgi.upstream) (question : string) (log : list Tgi.generate_call)
    (responses : list Tgi.StreamResponse) (fuel : nat) :
  Tgi.template self = Tgi.TEMPLATE ->
  Tgi.on_generate_stream server log (prompt_of question) 1024 = (responses, None) ->
  List.length responses < fuel ->
  Tgi.consume self server fuel (Tgi.generate_stream question) log
    = (map Tgi.text
         (filter (fun t => negb (Tgi.special t)) (map Tgi.token responses)),
       Tgi.Completed,
       log ++ [{| Tgi.streaming := true
                ; Tgi.prompt := prompt_of question
                ; Tgi.max_new_tokens := 1024 |}])
  /\ (Forall (fun r => Tgi.special (Tgi.token r) = true) responses ->
      fst (fst (Tgi.consume self server fuel (Tgi.generate_stream question) log)) = []).
Proof.
  intros Ht Hup Hlt.
  set (call := {| Tgi.streaming := true
                ; Tgi.prompt := prompt_of question
                ; Tgi.max_new_tokens := 1024 |}).
  assert (Hstart : Tgi.consume self server fuel (Tgi.generate_stream question) log
                   = Tgi.consume self server fuel (Tgi.Streaming responses None)
                       (log ++ [call])).
  { destruct fuel as [|fuel]; [inversion Hlt|].
    unfold Tgi.generate_stream. cbn [Tgi.consume Tgi.anext].
    rewrite Ht, format_prompt, Hup. reflexivity. }
  rewrite Hstart, (@consume_streaming self server responses (log ++ [call]) fuel Hlt).
  split; [reflexivity|].
  intros Hall. cbn [fst]. now apply all_special_no_texts.
Qed.

(** C5 on the stream of three tokens whose middle one is special. *)
Lemma stream_delivers_non_special_texts_witness :
  Tgi.consume tgi_self echo_server 4 (Tgi.generate_stream "hi") []
    = (["Hel"; "lo"], Tgi.Completed,
       [{| Tgi.streaming := true
         ; Tgi.prompt := prompt_of "hi"
         ; Tgi.max_new_tokens := 1024 |}]).
Proof.
  assert (Hlt : 3 < 4) by lia.
  destruct (@stream_delivers_non_special_texts tgi_self echo_server "hi" [] _ 4
              eq_refl eq_refl Hlt) as [H _].
  exact H.
Defined.

(* ===================================================================== *)
(** ** Every run of the gates *)
(* ===================================================================== *)

Lemma waiting_dec (o : observation) : waiting o \/ exists d, decides o d.
Proof.
  destruct o as [r c]. unfold waiting. cbn [connect child].
  destruct r as [| | |msg].
  - right. exists Accepts. reflexivity.
  - destruct c as [|code]; [left; split; reflexivity|].
    right. exists (Exits code). split; reflexivity.
  - destruct c as [|code]; [left; split; reflexivity|].
    right. exists (Exits code). split; reflexivity.
  - right. exists (Breaks msg). reflexivity.
Qed.

(** Among the first [fuel] iterations either all wait, or there is a first
    one that is decisive. *)
Lemma first_decisive (env : environment) (fuel : nat) :
  (forall j, j < fuel -> waiting (env j))
  \/ exists k d, k < fuel /\ (forall j, j < k -> waiting (env j)) /\ decides (env k) d.
Proof.
  induction fuel as [|fuel IH].
  - left. intros j Hj. lia.
  - destruct IH as [Hall | (k & d & Hk & Hw & Hd)].
    + destruct (waiting_dec (env fuel)) as [Hw | [d Hd]].
      * left. intros j Hj.
        destruct (Nat.eq_dec j fuel) as [-> | Hne]; [assumption | apply Hall; lia].
      * right. exists fuel, d. split; [lia | split; assumption].
    + right. exists k, d. split; [lia | split; assumption].
Qed.

(** The decisive iteration of [spawn_server] and of [Model.__enter__]. *)
Lemma spawn_server_loop_decides (env : environment) (fuel k : nat) (p : Popen)
    (d : decisive) :
  returncode p = None ->
  decides (env k) d ->
  Tei.spawn_server_loop env (S fuel) k p = (last_events (env k) d, verdict p d).
Proof.
  intros Hp Hd. cbn [Tei.spawn_server_loop]. destruct d as [|code|msg]; cbn in Hd.
  - rewrite Hd. reflexivity.
  - destruct Hd as [Hc Hx]. rewrite Hx, poll_exited by assumption.
    unfold last_events, probe.
    destruct (caught_cases _ Hc) as [E | E]; rewrite E; reflexivity.
  - unfold last_events, probe. rewrite Hd. reflexivity.
Qed.

Lemma enter_loop_decides (env : environment) (fuel k : nat) (self : Tgi.Model)
    (d : decisive) :
  returncode (Tgi.launcher self) = None ->
  decides (env k) d ->
  Tgi.enter_loop env (S fuel) k self = (last_events (env k) d, verdict self d).
Proof.
  intros Hp Hd. cbn [Tgi.enter_loop]. unfold Tgi.webserver_ready.
  destruct d as [|code|msg]; cbn in Hd.
  - rewrite Hd. reflexivity.
  - destruct Hd as [Hc Hx]. rewrite Hx, poll_exited by assumption.
    unfold last_events, probe.
    destruct (caught_cases _ Hc) as [E | E]; rewrite E; reflexivity.
  - unfold last_events, probe. rewrite Hd. reflexivity.
Qed.

(** Every run of the two gates: either the first [fuel] iterations all
    wait and both loops are still polling, or a first decisive iteration
    [k] ends both in the same way. *)
Lemma gate_runs (env : environment) (fuel : nat) :
  ((forall j, j < fuel -> waiting (env j))
   /\ Tei.spawn_server env fuel = (EvSpawn tei_argv :: tei_rounds env 0 fuel, StillPolling)
   /\ Tgi.__enter__ env fuel = (EvSpawn tgi_argv :: tgi_rounds env 0 fuel, StillPolling))
  \/ exists k d,
       k < fuel /\ (forall j, j < k -> waiting (env j)) /\ decides (env k) d
       /\ Tei.spawn_server env fuel =
            (EvSpawn tei_argv :: tei_rounds env 0 k ++ last_events (env k) d,
             verdict (spawn tei_argv) d)
       /\ Tgi.__enter__ env fuel =
            (EvSpawn tgi_argv :: tgi_rounds env 0 k ++ last_events (env k) d,
             verdict tgi_self d).
Proof.
  destruct (first_decisive env fuel) as [Hall | (k & d & Hk & Hw & Hd)].
  - left. split; [assumption|].
    assert (Hw0 : forall j, 0 <= j < 0 + fuel -> waiting (env j))
      by (intros j Hj; apply Hall; lia).
    pose proof (@spawn_server_loop_rounds env fuel 0 0 (spawn tei_argv) eq_refl Hw0) as H1.
    pose proof (@enter_loop_rounds env fuel 0 0 tgi_self eq_refl Hw0) as H2.
    rewrite Nat.add_0_r in H1, H2.
    cbn [Tei.spawn_server_loop Tgi.enter_loop fst snd] in H1, H2.
    rewrite app_nil_r in H1, H2.
    unfold Tei.spawn_server, Tgi.__enter__. fold tei_argv tgi_argv tgi_self.
    rewrite H1, H2. split; reflexivity.
  - right. exists k, d.
    split; [assumption | split; [assumption | split; [assumption | split]]].
    + assert (Hw0 : forall j, 0 <= j < 0 + k -> waiting (env j))
        by (intros j Hj; apply Hw; lia).
      unfold Tei.spawn_server. replace fuel with (k + S (fuel - S k)) by lia.
      rewrite (@spawn_server_loop_rounds env k _ 0 (spawn tei_argv) eq_refl Hw0).
      cbn [Nat.add].
      rewrite (@spawn_server_loop_decides env _ k (spawn tei_argv) d eq_refl Hd).
      reflexivity.
    + assert (Hw0 : forall j, 0 <= j < 0 + k -> waiting (env j))
        by (intros j Hj; apply Hw; lia).
      unfold Tgi.__enter__. replace fuel with (k + S (fuel - S k)) by lia.
      rewrite (@enter_loop_rounds env k _ 0 tgi_self eq_refl Hw0).
      cbn [Nat.add].
      rewrite (@enter_loop_decides env _ k tgi_self d eq_refl Hd).
      reflexivity.
Qed.

Lemma count_cons (kind : event -> bool) (ev : event) (tr : list event) :
  count kind (ev :: tr) = (if kind ev then 1 else 0) + count kind tr.
Proof. unfold count. cbn [filter]. destruct (kind ev); reflexivity. Qed.

Lemma waiting_prefix (env : environment) (k : nat) :
  (forall j, j < k -> waiting (env j)) ->
  forall j, 0 <= j < 0 + k -> waiting (env j).
Proof. intros Hw j Hj. apply Hw. lia. Qed.

(** A probe that did not connect is no successful connect. *)
Lemma probe_unsuccessful (o : observation) (d : decisive) :
  decides o d -> d <> Accepts -> is_successful_connect (probe o) = false.
Proof.
  unfold probe. destruct d as [|code|msg]; cbn; intros Hd Hne; [congruence| |].
  - destruct Hd as [Hc _]. destruct (caught_cases _ Hc) as [E | E]; rewrite E; reflexivity.
  - rewrite Hd. reflexivity.
Qed.

Lemma count_tei_rounds_no_sleep (env : environment) (i k : nat) :
  count is_sleep (tei_rounds env i k) = 0.
Proof.
  revert i. induction k as [|k IH]; intros i; [reflexivity|].
  unfold tei_rounds in *. cbn [seq flat_map]. rewrite count_app, IH. reflexivity.
Qed.

Lemma count_polls_rounds (env : environment) (i k : nat) :
  count is_poll (tei_rounds env i k) = k /\ count is_poll (tgi_rounds env i k) = k.
Proof.
  revert i. induction k as [|k IH]; intros i; [split; reflexivity|].
  destruct (IH (S i)) as [IH1 IH2].
  unfold tei_rounds, tgi_rounds in *. cbn [seq flat_map].
  rewrite !count_app, IH1, IH2. split; reflexivity.
Qed.

(** Without its sleeps, the trace of the fruitless iterations of
    [Model.__enter__] is that of [spawn_server]. *)
Lemma tgi_rounds_without_sleeps (env : environment) (i k : nat) :
  filter (fun ev => negb (is_sleep ev)) (tgi_rounds env i k) = tei_rounds env i k.
Proof.
  revert i. induction k as [|k IH]; intros i; [reflexivity|].
  unfold tei_rounds, tgi_rounds in *. cbn [seq flat_map].
  rewrite filter_app, IH. reflexivity.
Qed.

Lemma last_events_no_sleep (o : observation) (d : decisive) :
  filter (fun ev => negb (is_sleep ev)) (last_events o d) = last_events o d.
Proof. destruct d; reflexivity. Qed.

(** X1.  Whatever the port and the child do, and however long the loops
    run, each gate closes every probe connection it opened: its trace holds
    as many closes as successful connects, one of each when the gate has
    returned and none otherwise. *)
Theorem gate_closes_every_probe (env : environment) (fuel : nat) :
  count is_close (fst (Tei.spawn_server env fuel))
    = count is_successful_connect (fst (Tei.spawn_server env fuel))
  /\ count is_close (fst (Tgi.__enter__ env fuel))
    = count is_successful_connect (fst (Tgi.__enter__ env fuel))
  /\ count is_close (fst (Tei.spawn_server env fuel))
    = match snd (Tei.spawn_server env fuel) with Returned _ => 1 | _ => 0 end
  /\ count is_close (fst (Tgi.__enter__ env fuel))
    = match snd (Tgi.__enter__ env fuel) with Returned _ => 1 | _ => 0 end.
Proof.
  destruct (gate_runs env fuel)
    as [(Hall & -> & ->) | (k & d & Hk & Hw & Hd & -> & ->)]; cbn [fst snd].
  - destruct (@quiet_tei_rounds env 0 fuel (waiting_prefix env Hall)) as [Hs Hc].
    destruct (@quiet_tgi_rounds env 0 fuel (waiting_prefix env Hall)) as [Hs' Hc'].
    rewrite !count_cons, Hs, Hc, Hs', Hc'. cbn. repeat split.
  - destruct (@quiet_tei_rounds env 0 k (waiting_prefix env Hw)) as [Hs Hc].
    destruct (@quiet_tgi_rounds env 0 k (waiting_prefix env Hw)) as [Hs' Hc'].
    rewrite !count_cons, !count_app, Hs, Hc, Hs', Hc'.
    destruct d as [|code|msg]; cbn [last_events verdict].
    + cbn. repeat split.
    + rewrite !count_cons.
      rewrite (@probe_unsuccessful (env k) (Exits code) Hd) by discriminate.
      cbn. repeat split.
    + rewrite !count_cons.
      rewrite (@probe_unsuccessful (env k) (Breaks msg) Hd) by discriminate.
      cbn. repeat split.
Qed.

(** A first decisive iteration [k] ends both gates, whatever the number of
    iterations granted beyond it. *)
Lemma gate_decided (env : environment) (k fuel : nat) (d : decisive) :
  (forall j, j < k -> waiting (env j)) ->
  decides (env k) d ->
  k < fuel ->
  Tei.spawn_server env fuel =
    (EvSpawn tei_argv :: tei_rounds env 0 k ++ last_events (env k) d,
     verdict (spawn tei_argv) d)
  /\ Tgi.__enter__ env fuel =
    (EvSpawn tgi_argv :: tgi_rounds env 0 k ++ last_events (env k) d,
     verdict tgi_self d).
Proof.
  intros Hw Hd Hk. pose proof (waiting_prefix env Hw) as Hw0. split.
  - unfold Tei.spawn_server. replace fuel with (k + S (fuel - S k)) by lia.
    rewrite (@spawn_server_loop_rounds env k _ 0 (spawn tei_argv) eq_refl Hw0).
    cbn [Nat.add].
    rewrite (@spawn_server_loop_decides env _ k (spawn tei_argv) d eq_refl Hd).
    reflexivity.
  - unfold Tgi.__enter__. replace fuel with (k + S (fuel - S k)) by lia.
    rewrite (@enter_loop_rounds env k _ 0 tgi_self eq_refl Hw0).
    cbn [Nat.add].
    rewrite (@enter_loop_decides env _ k tgi_self d eq_refl Hd).
    reflexivity.
Qed.

(** X2.  A gate returns only when a connect has succeeded: if
    [spawn_server] or [Model.__enter__] returns within [fuel] iterations,
    some iteration [k < fuel] connected and every earlier one found no
    listener and a running child; what is returned is the handle (the
    object) as it was created, its return code never collected. *)
Theorem gate_returns_only_when_connected (env : environment) (fuel : nat) :
  (forall p, snd (Tei.spawn_server env fuel) = Returned p ->
     p = spawn tei_argv
     /\ exists k, k < fuel /\ connect (env k) = Connected
                 /\ forall j, j < k -> waiting (env j))
  /\ (forall self, snd (Tgi.__enter__ env fuel) = Returned self ->
     self = tgi_self
     /\ exists k, k < fuel /\ connect (env k) = Connected
                 /\ forall j, j < k -> waiting (env j)).
Proof.
  destruct (gate_runs env fuel)
    as [(Hall & -> & ->) | (k & d & Hk & Hw & Hd & -> & ->)]; cbn [fst snd].
  - split; intros x Hx; discriminate Hx.
  - destruct d as [|code|msg]; cbn [verdict];
      (split; intros x Hx; [try discriminate Hx | try discriminate Hx]).
    + injection Hx as <-. split; [reflexivity|]. exists k. auto.
    + injection Hx as <-. split; [reflexivity|]. exists k. auto.
Qed.

(** X2 at a port that accepts the fourth attempt. *)
Lemma gate_returns_only_when_connected_witness :
  exists k, k < 10 /\ connect (ready_at 3 k) = Connected.
Proof.
  destruct (gate_returns_only_when_connected (ready_at 3) 10) as [H _].
  destruct (H (spawn tei_argv) eq_refl) as (_ & k & Hk & Hc & _).
  exists k. split; assumption.
Defined.



(** X4.  A connect that fails with an error other than a timeout or a
    refusal is not handled: when that happens at iteration [k], after [k]
    iterations without a listener, both gates let the error through at once.
    The child is not polled in that iteration ([k] polls in all, one per
    earlier iteration) and nothing is closed. *)
Theorem gate_lets_other_errors_through (env : environment) (k fuel : nat) (msg : string) :
  (forall j, j < k -> waiting (env j)) ->
  connect (env k) = OtherFailure msg ->
  k < fuel ->
  Tei.spawn_server env fuel =
    (EvSpawn tei_argv :: tei_rounds env 0 k ++ [EvConnect "127.0.0.1" 8000 1 (OtherFailure msg)],
     Raised (OSError msg))
  /\ Tgi.__enter__ env fuel =
    (EvSpawn tgi_argv :: tgi_rounds env 0 k ++ [EvConnect "127.0.0.1" 8000 1 (OtherFailure msg)],
     Raised (OSError msg))
  /\ count is_poll (fst (Tei.spawn_server env fuel)) = k
  /\ count is_poll (fst (Tgi.__enter__ env fuel)) = k
  /\ count is_close (fst (Tei.spawn_server env fuel)) = 0
  /\ count is_close (fst (Tgi.__enter__ env fuel)) = 0.
Proof.
  intros Hw Hc Hk.
  destruct (@gate_decided env k fuel (Breaks msg) Hw Hc Hk) as [H1 H2].
  rewrite H1, H2. cbn [last_events verdict fst]. unfold probe. rewrite Hc.
  destruct (count_polls_rounds env 0 k) as [P1 P2].
  destruct (@quiet_tei_rounds env 0 k (waiting_prefix env Hw)) as [_ C1].
  destruct (@quiet_tgi_rounds env 0 k (waiting_prefix env Hw)) as [_ C2].
  rewrite !count_cons, !count_app, P1, P2, C1, C2. cbn.
  repeat (split; [first [reflexivity | lia]|]). reflexivity.
Qed.

(** X4 at a port whose third connect fails with an unreachable network. *)
Lemma gate_lets_other_errors_through_witness :
  snd (Tei.spawn_server (breaks_at 2 "Network is unreachable") 5)
    = Raised (OSError "Network is unreachable")
  /\ count is_poll (fst (Tgi.__enter__ (breaks_at 2 "Network is unreachable") 5)) = 2.
Proof.
  assert (Hw : forall j, j < 2 -> waiting (breaks_at 2 "Network is unreachable" j)).
  { intros j Hj. destruct j as [|[|j]]; [split; reflexivity | split; reflexivity | lia]. }
  assert (Hk : 2 < 5) by lia.
  destruct (@gate_lets_other_errors_through (breaks_at 2 "Network is unreachable") 2 5
              "Network is unreachable" Hw eq_refl Hk) as (H1 & _ & _ & H4 & _).
  rewrite H1. split; [reflexivity | exact H4].
Defined.

(** X5.  [spawn_server] never sleeps: its attempts follow each other with
    no pause.  [Model.__enter__] sleeps one second after every attempt that
    fails and after no other: while it polls it has slept as often as it has
    tried, and once it has returned or raised, once less. *)
Theorem gate_sleeps_between_attempts (env : environment) (fuel : nat) :
  count is_sleep (fst (Tei.spawn_server env fuel)) = 0
  /\ count is_sleep (fst (Tgi.__enter__ env fuel))
     + match snd (Tgi.__enter__ env fuel) with StillPolling => 0 | _ => 1 end
     = attempts (fst (Tgi.__enter__ env fuel)).
Proof.
  destruct (gate_runs env fuel)
    as [(Hall & -> & ->) | (k & d & Hk & Hw & Hd & -> & ->)]; cbn [fst snd].
  - unfold attempts.
    rewrite !count_cons, count_tei_rounds_no_sleep, sleeps_tgi_rounds.
    fold (attempts (tgi_rounds env 0 fuel)). rewrite attempts_tgi_rounds.
    cbn. split; lia.
  - unfold attempts.
    rewrite !count_cons, !count_app, count_tei_rounds_no_sleep, sleeps_tgi_rounds.
    fold (attempts (tgi_rounds env 0 k)). rewrite attempts_tgi_rounds.
    destruct d; cbn; split; lia.
Qed.

(** X6.  The two gates are the same protocol: on the same port and child
    they end in the same way after the same number of attempts, and the
    trace of [Model.__enter__] without its sleeps is the trace of
    [spawn_server] (the command line spawned apart). *)
Theorem gates_agree (env : environment) (fuel : nat) :
  forget (snd (Tei.spawn_server env fuel)) = forget (snd (Tgi.__enter__ env fuel))
  /\ filter (fun ev => negb (is_sleep ev)) (tl (fst (Tgi.__enter__ env fuel)))
     = tl (fst (Tei.spawn_server env fuel))
  /\ attempts (fst (Tei.spawn_server env fuel)) = attempts (fst (Tgi.__enter__ env fuel)).
Proof.
  destruct (gate_runs env fuel)
    as [(Hall & -> & ->) | (k & d & Hk & Hw & Hd & -> & ->)]; cbn [fst snd tl].
  - split; [reflexivity|]. split; [apply tgi_rounds_without_sleeps|].
    unfold attempts. rewrite !count_cons.
    fold (attempts (tei_rounds env 0 fuel)) (attempts (tgi_rounds env 0 fuel)).
    now rewrite attempts_tei_rounds, attempts_tgi_rounds.
  - split; [destruct d; reflexivity|]. split.
    + now rewrite filter_app, tgi_rounds_without_sleeps, last_events_no_sleep.
    + unfold attempts. rewrite !count_cons, !count_app.
      fold (attempts (tei_rounds env 0 k)) (attempts (tgi_rounds env 0 k)).
      now rewrite attempts_tei_rounds, attempts_tgi_rounds.
Qed.

(** X7.  Entering and leaving: an object that [__enter__] has returned
    holds the handle as it was spawned, so [__exit__] on it, the server
    still running, delivers exactly one SIGTERM and changes nothing else. *)
Theorem exit_after_enter (env : environment) (fuel : nat) :
  (forall self, snd (Tei.__enter__ env fuel) = Returned self ->
     self = tei_self /\ Tei.__exit__ Running self = ([SIGTERM], self))
  /\ (forall self, snd (Tgi.__enter__ env fuel) = Returned self ->
     self = tgi_self /\ Tgi.__exit__ Running self = ([SIGTERM], self)).
Proof.
  unfold Tei.__enter__.
  destruct (gate_runs env fuel)
    as [(Hall & -> & ->) | (k & d & Hk & Hw & Hd & -> & ->)]; cbn [fst snd].
  - split; intros x Hx; discriminate Hx.
  - destruct d as [|code|msg]; cbn [verdict fst snd];
      (split; intros x Hx; [try discriminate Hx | try discriminate Hx]).
    + injection Hx as <-. split; reflexivity.
    + injection Hx as <-. split; reflexivity.
Qed.

(** X7 at a port that accepts the fourth attempt. *)
Lemma exit_after_enter_witness :
  Tei.__exit__ Running tei_self = ([SIGTERM], tei_self)
  /\ Tgi.__exit__ Running tgi_self = ([SIGTERM], tgi_self).
Proof.
  destruct (exit_after_enter (ready_at 3) 10) as [H1 H2].
  destruct (H1 tei_self eq_refl) as [_ E1].
  destruct (H2 tgi_self eq_refl) as [_ E2].
  split; assumption.
Defined.

(* ===================================================================== *)
(** ** More on batching and on the embedding proxy *)
(* ===================================================================== *)

Lemma generate_batches_loop_sizes (batch_size : nat) (data batch : list (Z * string)) :
  Forall (fun b => List.length b = batch_size)
    (Tei.generate_batches_loop batch_size batch data).
Proof.
  revert batch. induction data as [|item rest IH]; intros batch; [constructor|].
  cbn [Tei.generate_batches_loop].
  destruct (Nat.eqb_spec (List.length (batch ++ [item])) batch_size) as [Heq | Hneq].
  - constructor; [assumption | apply IH].
  - apply IH.
Qed.

Lemma generate_batches_loop_zero (data batch : list (Z * string)) :
  Tei.generate_batches_loop 0 batch data = [].
Proof.
  revert batch. induction data as [|item rest IH]; intros batch; [reflexivity|].
  cbn [Tei.generate_batches_loop].
  destruct (Nat.eqb_spec (List.length (batch ++ [item])) 0) as [Heq | Hneq].
  - rewrite length_app in Heq. cbn in Heq. lia.
  - apply IH.
Qed.

(** X8.  For a batch size that is not zero, [generate_batches] cuts the
    data into consecutive batches of exactly that size, in order: there are
    [floor(N / B)] of them, they make up a prefix of the data, and what
    follows that prefix, the last [N mod B] pairs, is in no batch. *)
Theorem generate_batches_full_slices (batch_size : nat) (data : list (Z * string)) :
  0 < batch_size ->
  let batches := Tei.generate_batches_of batch_size data in
  let covered := batch_size * (List.length data / batch_size) in
  Forall (fun b => List.length b = batch_size) batches
  /\ List.length batches = List.length data / batch_size
  /\ List.concat batches ++ skipn covered data = data
  /\ List.length (skipn covered data) = List.length data mod batch_size.
Proof.
  intros HB batches covered. subst batches covered.
  destruct (generate_batches_of_spec data HB) as [Hlen Hcat].
  split; [apply generate_batches_loop_sizes|]. split; [assumption|].
  rewrite Hcat. split; [apply firstn_skipn|].
  rewrite length_skipn.
  pose proof (Nat.div_mod_eq (List.length data) batch_size). lia.
Qed.

(** X8 on seven pairs cut by three. *)
Lemma generate_batches_full_slices_witness :
  List.length (Tei.generate_batches_of 3 (numbered 7)) = 2
  /\ List.length (skipn 6 (numbered 7)) = 1.
Proof.
  assert (HB : 0 < 3) by lia.
  destruct (@generate_batches_full_slices 3 (numbered 7) HB) as (_ & H2 & _ & H4).
  split; [exact H2 | exact H4].
Defined.

(** X9.  When the batch size divides the number of pairs nothing is left
    out: the batches, put end to end, are the data, and there are
    [ceil(N / B)] of them. *)
Theorem generate_batches_exact (batch_size : nat) (data : list (Z * string)) :
  0 < batch_size ->
  List.length data mod batch_size = 0 ->
  List.concat (Tei.generate_batches_of batch_size data) = data
  /\ List.length (Tei.generate_batches_of batch_size data)
     = ceil_div (List.length data) batch_size.
Proof.
  intros HB Hmod.
  destruct (generate_batches_of_spec data HB) as [Hlen Hcat].
  pose proof (Nat.div_mod_eq (List.length data) batch_size) as E.
  rewrite Hmod, Nat.add_0_r in E.
  split.
  - rewrite Hcat, <- E. apply firstn_all.
  - rewrite Hlen. unfold ceil_div.
    set (q := List.length data / batch_size) in *.
    replace (List.length data + batch_size - 1) with (q * batch_size + (batch_size - 1)) by nia.
    rewrite Nat.div_add_l by lia. rewrite Nat.div_small by lia. lia.
Qed.

(** X9 on 64 pairs and the batch size of the script. *)
Lemma generate_batches_exact_witness :
  List.concat (Tei.generate_batches (numbered 64)) = numbered 64
  /\ List.length (Tei.generate_batches (numbered 64)) = 2.
Proof.
  assert (HB : 0 < Tei.BATCH_SIZE) by (unfold Tei.BATCH_SIZE; lia).
  assert (Hmod : List.length (numbered 64) mod Tei.BATCH_SIZE = 0) by reflexivity.
  destruct (@generate_batches_exact Tei.BATCH_SIZE (numbered 64) HB Hmod) as [H1 H2].
  split; [exact H1 | exact H2].
Defined.

(** X10.  Nothing is yielded when the batch size is zero (a list that has
    just received an item is never empty) or when the data is shorter than
    a batch, the empty data included. *)
Theorem generate_batches_yields_nothing (batch_size : nat) (data : list (Z * string)) :
  batch_size = 0 \/ List.length data < batch_size ->
  Tei.generate_batches_of batch_size data = [].
Proof.
  intros [-> | Hshort].
  - apply generate_batches_loop_zero.
  - assert (HB : 0 < batch_size) by lia.
    destruct (generate_batches_of_spec data HB) as [Hlen _].
    rewrite Nat.div_small in Hlen by assumption.
    now apply length_zero_iff_nil.
Qed.

(** X10 on 31 pairs and the batch size of the script. *)
Lemma generate_batches_yields_nothing_witness :
  Tei.generate_batches (numbered 31) = [].
Proof.
  apply (@generate_batches_yields_nothing Tei.BATCH_SIZE (numbered 31)).
  right. vm_compute. lia.
Defined.

Lemma map_fst_combine (ids : list Z) (vectors : list json) :
  List.length vectors = List.length ids ->
  map fst (combine ids vectors) = ids.
Proof.
  revert vectors. induction ids as [|x ids IH]; intros [|v vectors] H;
    try discriminate H; [reflexivity|].
  cbn. f_equal. apply IH. now injection H.
Qed.

(** X11.  Every batch that [generate_batches] yields, for a batch size
    that is not zero, is a batch [embed] accepts: it holds exactly that
    many pairs and so is not empty, the unpacking of [embed] cannot fail on
    it (no [ValueError]), and [embed] sends for it exactly one request, the
    one that carries its texts, whatever the server answers.  When the
    answer is a success with one vector per text, the pairs [embed] makes
    hold the identifiers of the batch, in order. *)
Theorem yielded_batches_are_embedded (batch_size : nat)
    (self : Tei.TextEmbeddingsInference) (server : Tei.upstream)
    (data batch : list (Z * string)) (log : list Tei.http_request) :
  0 < batch_size ->
  In batch (Tei.generate_batches_of batch_size data) ->
  List.length batch = batch_size
  /\ batch <> []
  /\ snd (run_proxy (Tei.embed self server batch) log) = log ++ [embed_request self batch]
  /\ (forall msg,
        fst (run_proxy (Tei.embed self server batch) log) <> inl (ValueError msg))
  /\ (forall vectors,
        Tei.is_success (server log (embed_request self batch)) = true ->
        Tei.content (server log (embed_request self batch)) = Some (JArr vectors) ->
        List.length vectors = List.length batch ->
        exists output,
          fst (run_proxy (Tei.embed self server batch) log) = inr output
          /\ map fst output = map fst batch).
Proof.
  intros HB Hin.
  pose proof (generate_batches_loop_sizes batch_size data []) as Hsizes.
  fold (Tei.generate_batches_of batch_size data) in Hsizes.
  rewrite Forall_forall in Hsizes. pose proof (Hsizes batch Hin) as Hlen.
  assert (Hne : batch <> []) by (intros ->; cbn in Hlen; lia).
  split; [assumption|]. split; [assumption|].
  rewrite embed_run by assumption. cbn zeta. cbn [fst snd].
  split; [reflexivity|]. split.
  - intros msg.
    destruct (Tei.is_success _); [|discriminate].
    destruct (Tei.content _) as [outputs|]; [|discriminate].
    unfold Tei.py_zip. destruct outputs; cbn; discriminate.
  - intros vectors Hok Hbody Hvec. rewrite Hok, Hbody.
    exists (combine (map fst batch) vectors). split; [reflexivity|].
    apply map_fst_combine. now rewrite length_map.
Qed.

(** X11 on 32 pairs and the batch size of the script. *)
Lemma yielded_batches_are_embedded_witness :
  snd (run_proxy (Tei.embed tei_self unit_server (numbered 32)) [])
    = [] ++ [embed_request tei_self (numbered 32)].
Proof.
  assert (HB : 0 < Tei.BATCH_SIZE) by (unfold Tei.BATCH_SIZE; lia).
  assert (Hin : In (numbered 32) (Tei.generate_batches_of Tei.BATCH_SIZE (numbered 32)))
    by (vm_compute; left; reflexivity).
  destruct (@yielded_batches_are_embedded Tei.BATCH_SIZE tei_self unit_server
              (numbered 32) (numbered 32) [] HB Hin) as (_ & _ & H & _).
  exact H.
Defined.

Lemma combine_as_firstn (ids : list Z) (vectors : list json) :
  map fst (combine ids vectors) = firstn (List.length vectors) ids
  /\ map snd (combine ids vectors) = firstn (List.length ids) vectors.
Proof.
  revert vectors. induction ids as [|x ids IH]; intros [|v vectors]; cbn;
    try (split; reflexivity).
  destruct (IH vectors) as [-> ->]. split; reflexivity.
Qed.

(** X13.  [embed] does not compare the number of vectors it receives with
    the number of texts it sent: the pairing stops with the shorter of the
    two, so identifiers beyond the last vector get no pair and vectors
    beyond the last identifier are dropped, without any error. *)
Theorem embed_pairs_up_to_shorter (self : Tei.TextEmbeddingsInference)
    (server : Tei.upstream) (batch : list (Z * string))
    (log : list Tei.http_request) (vectors : list json) :
  batch <> [] ->
  Tei.is_success (server log (embed_request self batch)) = true ->
  Tei.content (server log (embed_request self batch)) = Some (JArr vectors) ->
  exists output,
    fst (run_proxy (Tei.embed self server batch) log) = inr output
    /\ List.length output = Nat.min (List.length batch) (List.length vectors)
    /\ map fst output = firstn (List.length vectors) (map fst batch)
    /\ map snd output = firstn (List.length batch) vectors.
Proof.
  intros Hne Hok Hbody. exists (combine (map fst batch) vectors).
  rewrite embed_run by assumption. cbn zeta. rewrite Hok, Hbody. cbn [fst Tei.py_zip py_iter].
  split; [reflexivity|]. split; [now rewrite length_combine, length_map|].
  destruct (combine_as_firstn (map fst batch) vectors) as [-> ->].
  now rewrite length_map.
Qed.

(** X13 against a server that answers 200 with a single vector whatever it
    is sent. *)
Lemma embed_pairs_up_to_shorter_witness :
  exists output,
    fst (run_proxy (Tei.embed tei_self (fun _ _ => {| Tei.status_code := 200
                                                    ; Tei.content := Some (JArr [unit_vector]) |})
                      [(7%Z, "a"); (3%Z, "b")]) []) = inr output
    /\ List.length output = 1.
Proof.
  assert (Hne : [(7%Z, "a"); (3%Z, "b")] <> @nil (Z * string)) by discriminate.
  destruct (@embed_pairs_up_to_shorter tei_self
              (fun _ _ => {| Tei.status_code := 200
                           ; Tei.content := Some (JArr [unit_vector]) |})
              [(7%Z, "a"); (3%Z, "b")] [] [unit_vector] Hne eq_refl eq_refl)
    as (output & H1 & H2 & _).
  exists output. split; [exact H1 | exact H2].
Defined.

(** X14.  The status is checked before the body is read, and the body
    after the request has gone out: with a success status, a body that does
    not decode as JSON makes [embed] raise the decoding error, and a body
    that decodes to null, a boolean or a number makes the pairing raise a
    [TypeError]; with a status that is no success the status error is raised
    whatever the body holds.  In each case exactly one request was sent. *)
Theorem embed_errors_follow_the_request (self : Tei.TextEmbeddingsInference)
    (server : Tei.upstream) (batch : list (Z * string))
    (log : list Tei.http_request) :
  batch <> [] ->
  let resp := server log (embed_request self batch) in
  let sent := log ++ [embed_request self batch] in
  (Tei.is_success resp = true -> Tei.content resp = None ->
     run_proxy (Tei.embed self server batch) log = (inl JSONDecodeError, sent))
  /\ (Tei.is_success resp = true ->
      (Tei.content resp = Some JNull
       \/ (exists b, Tei.content resp = Some (JBool b))
       \/ (exists m e, Tei.content resp = Some (JNum m e))) ->
      exists msg, run_proxy (Tei.embed self server batch) log = (inl (TypeError msg), sent))
  /\ (Tei.is_success resp = false ->
      run_proxy (Tei.embed self server batch) log
        = (inl (HTTPStatusError (Tei.status_code resp)), sent)).
Proof.
  intros Hne resp sent. subst resp sent.
  rewrite embed_run by assumption. cbn zeta.
  split; [|split].
  - intros -> ->. reflexivity.
  - intros -> [-> | [[b ->] | (m & e & ->)]]; eexists; reflexivity.
  - intros ->. reflexivity.
Qed.

(** X14 against a server that answers 200 with the body [null]. *)
Lemma embed_errors_follow_the_request_witness :
  exists msg,
    run_proxy (Tei.embed tei_self (fun _ _ => {| Tei.status_code := 200
                                               ; Tei.content := Some JNull |})
                 [(1%Z, "a")]) []
      = (inl (TypeError msg), [] ++ [embed_request tei_self [(1%Z, "a")]]).
Proof.
  assert (Hne : [(1%Z, "a")] <> @nil (Z * string)) by discriminate.
  destruct (@embed_errors_follow_the_request tei_self
              (fun _ _ => {| Tei.status_code := 200; Tei.content := Some JNull |})
              [(1%Z, "a")] [] Hne) as (_ & H & _).
  exact (H eq_refl (or_introl eq_refl)).
Defined.

(* ===================================================================== *)
(** ** More on the generation proxy *)
(* ===================================================================== *)

(** Draining a generator suspended at its [yield]: the texts of the tokens
    ahead that are not special, then the end of the upstream stream. *)
Lemma consume_to_the_end (self : Tgi.Model) (server : Tgi.upstream)
    (rest : list Tgi.StreamResponse) (ending : option exn)
    (log : list Tgi.generate_call) (fuel : nat) :
  List.length rest < fuel ->
  Tgi.consume self server fuel (Tgi.Streaming rest ending) log
    = (non_special_texts rest, how_ended ending, log).
Proof.
  revert fuel. induction rest as [|r rest IH]; intros fuel Hlt.
  - destruct fuel as [|fuel]; [inversion Hlt|]. destruct ending; reflexivity.
  - destruct fuel as [|fuel]; [inversion Hlt|].
    cbn [List.length] in Hlt.
    unfold non_special_texts. cbn [map filter].
    destruct (Tgi.special (Tgi.token r)) eqn:Hs; cbn [negb].
    + assert (Hstep : Tgi.consume self server (S fuel) (Tgi.Streaming (r :: rest) ending) log
                      = Tgi.consume self server (S fuel) (Tgi.Streaming rest ending) log).
      { cbn [Tgi.consume Tgi.anext Tgi.resume]. now rewrite Hs. }
      rewrite Hstep. apply IH. lia.
    + cbn [Tgi.consume Tgi.anext Tgi.resume]. rewrite Hs. cbn [negb].
      rewrite IH by lia. reflexivity.
Qed.

(** Taking at most [fuel] fragments from a suspended generator. *)
Lemma consume_prefix (self : Tgi.Model) (server : Tgi.upstream)
    (rest : list Tgi.StreamResponse) (ending : option exn)
    (log : list Tgi.generate_call) (fuel : nat) :
  fst (fst (Tgi.consume self server fuel (Tgi.Streaming rest ending) log))
    = firstn fuel (non_special_texts rest)
  /\ snd (Tgi.consume self server fuel (Tgi.Streaming rest ending) log) = log.
Proof.
  revert fuel. induction rest as [|r rest IH]; intros fuel.
  - destruct fuel as [|fuel]; [split; reflexivity|]. destruct ending; split; reflexivity.
  - destruct fuel as [|fuel]; [split; reflexivity|].
    unfold non_special_texts. cbn [map filter].
    destruct (Tgi.special (Tgi.token r)) eqn:Hs; cbn [negb].
    + assert (Hstep : Tgi.consume self server (S fuel) (Tgi.Streaming (r :: rest) ending) log
                      = Tgi.consume self server (S fuel) (Tgi.Streaming rest ending) log).
      { cbn [Tgi.consume Tgi.anext Tgi.resume]. now rewrite Hs. }
      rewrite Hstep. apply IH.
    + cbn [Tgi.consume Tgi.anext Tgi.resume]. rewrite Hs. cbn [negb].
      destruct (IH fuel) as [IH1 IH2].
      destruct (Tgi.consume self server fuel (Tgi.Streaming rest ending) log)
        as [[fragments c] log'].
      cbn [fst snd firstn map] in *. now rewrite IH1, IH2.
Qed.

(** The first step of a new generator opens the upstream stream. *)
Lemma consume_start (self : Tgi.Model) (server : Tgi.upstream) (question : string)
    (log : list Tgi.generate_call) (responses : list Tgi.StreamResponse)
    (ending : option exn) (fuel : nat) :
  Tgi.template self = Tgi.TEMPLATE ->
  Tgi.on_generate_stream server log (prompt_of question) 1024 = (responses, ending) ->
  Tgi.consume self server (S fuel) (Tgi.generate_stream question) log
    = Tgi.consume self server (S fuel) (Tgi.Streaming responses ending)
        (log ++ [stream_call question]).
Proof.
  intros Ht Hup. unfold Tgi.generate_stream. cbn [Tgi.consume Tgi.anext].
  rewrite Ht, format_prompt, Hup. reflexivity.
Qed.

(** X15.  The stream is lazy and in order: a consumer that takes at most
    [n] steps receives the first [n] texts of the tokens that are not
    special, whatever follows in the upstream stream and however it ends.
    No upstream call is made before the first step, and exactly one from
    then on, whatever the number of fragments taken. *)
Theorem stream_delivers_in_order_on_demand (self : Tgi.Model)
    (server : Tgi.upstream) (question : string) (log : list Tgi.generate_call)
    (responses : list Tgi.StreamResponse) (ending : option exn) (n : nat) :
  Tgi.template self = Tgi.TEMPLATE ->
  Tgi.on_generate_stream server log (prompt_of question) 1024 = (responses, ending) ->
  fst (fst (Tgi.consume self server n (Tgi.generate_stream question) log))
    = firstn n (non_special_texts responses)
  /\ snd (Tgi.consume self server n (Tgi.generate_stream question) log)
     = match n with
       | O => log
       | S _ => log ++ [stream_call question]
       end.
Proof.
  intros Ht Hup. destruct n as [|n]; [split; reflexivity|].
  rewrite (@consume_start self server question log responses ending n Ht Hup).
  apply consume_prefix.
Qed.

(** X15 on the stream of three tokens, taking one fragment. *)
Lemma stream_delivers_in_order_on_demand_witness :
  fst (fst (Tgi.consume tgi_self echo_server 1 (Tgi.generate_stream "hi") [])) = ["Hel"]
  /\ snd (Tgi.consume tgi_self echo_server 1 (Tgi.generate_stream "hi") [])
     = [stream_call "hi"].
Proof.
  destruct (@stream_delivers_in_order_on_demand tgi_self echo_server "hi" [] _ _ 1
              eq_refl eq_refl) as [H1 H2].
  split; [exact H1 | exact H2].
Defined.

(** X16.  When the upstream stream breaks with an error after some
    responses, the consumer has received the texts of the tokens emitted
    before the break that are not special, and its iteration then ends with
    that very error: what was delivered stays delivered and the error is
    not swallowed. *)
Theorem stream_failure_reaches_consumer (self : Tgi.Model)
    (server : Tgi.upstream) (question : string) (log : list Tgi.generate_call)
    (responses : list Tgi.StreamResponse) (e : exn) (fuel : nat) :
  Tgi.template self = Tgi.TEMPLATE ->
  Tgi.on_generate_stream server log (prompt_of question) 1024 = (responses, Some e) ->
  List.length responses < fuel ->
  Tgi.consume self server fuel (Tgi.generate_stream question) log
    = (non_special_texts responses, Tgi.Failed e, log ++ [stream_call question]).
Proof.
  intros Ht Hup Hlt. destruct fuel as [|fuel]; [inversion Hlt|].
  rewrite (@consume_start self server question log responses (Some e) fuel Ht Hup).
  apply (@consume_to_the_end self server responses (Some e) _ (S fuel) Hlt).
Qed.

(** X16 against the server whose stream breaks after two tokens. *)
Lemma stream_failure_reaches_consumer_witness :
  Tgi.consume tgi_self breaking_server 5 (Tgi.generate_stream "hi") []
    = (["Hel"], Tgi.Failed (ClientError "connection reset"), [stream_call "hi"]).
Proof.
  assert (Hlt : 2 < 5) by lia.
  exact (@stream_failure_reaches_consumer tgi_self breaking_server "hi" [] _ _ 5
           eq_refl eq_refl Hlt).
Defined.

Lemma str_length_append (a b : string) :
  String.length (a ++ b) = String.length a + String.length b.
Proof. induction a as [|c a IH]; cbn; [reflexivity | now rewrite IH]. Qed.

Lemma str_append_assoc (a b c : string) :
  ((a ++ b) ++ c = a ++ (b ++ c))%string.
Proof. induction a as [|x a IH]; cbn; [reflexivity | now rewrite IH]. Qed.

Lemma str_append_cancel_l (p a b : string) :
  (p ++ a = p ++ b)%string -> a = b.
Proof.
  induction p as [|c p IH]; cbn; intros H; [assumption|].
  injection H as H. now apply IH.
Qed.

Lemma str_append_cancel_r (a b s : string) :
  (a ++ s = b ++ s)%string -> a = b.
Proof.
  revert b. induction a as [|c a IH]; intros [|d b] H; cbn in H.
  - reflexivity.
  - exfalso. apply (f_equal String.length) in H.
    cbn in H. rewrite str_length_append in H. lia.
  - exfalso. apply (f_equal String.length) in H.
    cbn in H. rewrite str_length_append in H. lia.
  - injection H as -> H. f_equal. now apply IH.
Qed.

Lemma prompt_of_inj (q1 q2 : string) : prompt_of q1 = prompt_of q2 -> q1 = q2.
Proof.
  unfold prompt_of. intros H.
  repeat (apply str_append_cancel_l in H).
  now apply str_append_cancel_r in H.
Qed.

(** X17.  The question reaches the server verbatim inside the template,
    whatever characters it holds (braces and line feeds included):
    formatting never fails, [generate] and [generate_stream] send the same
    prompt for the same question, with the same bound, and two questions
    that give the same upstream call are the same question. *)
Theorem prompt_carries_question (self : Tgi.Model) (server : Tgi.upstream)
    (question : string) (log : list Tgi.generate_call) :
  Tgi.template self = Tgi.TEMPLATE ->
  map Tgi.prompt (snd (run_proxy (Tgi.generate self server question) log))
    = map Tgi.prompt log ++ [prompt_of question]
  /\ map Tgi.prompt (snd (Tgi.anext self server (Tgi.generate_stream question) log))
    = map Tgi.prompt log ++ [prompt_of question]
  /\ map Tgi.max_new_tokens (snd (Tgi.anext self server (Tgi.generate_stream question) log))
    = map Tgi.max_new_tokens (snd (run_proxy (Tgi.generate self server question) log))
  /\ (forall question',
        snd (run_proxy (Tgi.generate self server question') log)
          = snd (run_proxy (Tgi.generate self server question) log) ->
        question' = question).
Proof.
  intros Ht.
  assert (Hstream : snd (Tgi.anext self server (Tgi.generate_stream question) log)
                    = log ++ [stream_call question]).
  { unfold Tgi.generate_stream. cbn [Tgi.anext]. rewrite Ht, format_prompt.
    destruct (Tgi.on_generate_stream server log (prompt_of question) 1024). reflexivity. }
  rewrite Hstream, (@generate_run self server question log Ht). cbn [snd].
  rewrite !map_app. cbn [map stream_call Tgi.prompt Tgi.max_new_tokens].
  repeat (split; [reflexivity|]).
  intros question' H. rewrite (@generate_run self server question' log Ht) in H.
  cbn [snd] in H. apply app_inv_head in H.
  apply prompt_of_inj.
  exact (f_equal (fun calls => match calls with
                               | [call] => Tgi.prompt call
                               | _ => EmptyString
                               end) H).
Qed.

(** X17 on a question that holds braces. *)
Lemma prompt_carries_question_witness :
  map Tgi.prompt (snd (run_proxy (Tgi.generate tgi_self echo_server "{user}") []))
    = [prompt_of "{user}"].
Proof.
  destruct (@prompt_carries_question tgi_self echo_server "{user}" [] eq_refl) as [H _].
  exact H.
Defined.

(* ===================================================================== *)
(** ** The events of the completion endpoint *)
(* ===================================================================== *)

Lemma chars_append (a b : string) :
  list_ascii_of_string (a ++ b) = list_ascii_of_string a ++ list_ascii_of_string b.
Proof. induction a as [|c a IH]; cbn; [reflexivity | now rewrite IH]. Qed.

Lemma no_control_append (a b : string) :
  no_control a -> no_control b -> no_control (a ++ b).
Proof.
  unfold no_control. rewrite chars_append. intros Ha Hb.
  apply Forall_app. split; assumption.
Qed.

Lemma no_control_escape_char (c : ascii) : no_control (escape_char c).
Proof.
  assert (H : forallb (fun x => 32 <=? nat_of_ascii x)
                (list_ascii_of_string (escape_char c)) = true).
  { destruct c as [[] [] [] [] [] [] [] []]; reflexivity. }
  unfold no_control. apply Forall_forall. intros x Hx.
  rewrite forallb_forall in H. apply Nat.leb_le. now apply H.
Qed.

Lemma no_control_escape (s : string) : no_control (escape s).
Proof.
  induction s as [|c s IH]; [constructor|].
  cbn [escape]. apply no_control_append; [apply no_control_escape_char | assumption].
Qed.

Lemma no_control_literal (s : string) :
  forallb (fun x => 32 <=? nat_of_ascii x) (list_ascii_of_string s) = true ->
  no_control s.
Proof.
  intros H. unfold no_control. apply Forall_forall. intros x Hx.
  rewrite forallb_forall in H. apply Nat.leb_le. now apply H.
Qed.

(** X18.  Escaping keeps an event on one line: the JSON text written for
    a fragment holds no control character, so no line feed and no carriage
    return, whatever the fragment holds; the only line feeds of the event
    are the two that close it. *)
Theorem sse_event_is_one_line (fragment : string) :
  no_control (Tgi.json_dumps_text fragment)
  /\ no_control ("data: " ++ Tgi.json_dumps_text fragment)
  /\ Tgi.sse_event fragment
     = (("data: " ++ Tgi.json_dumps_text fragment) ++ Tgi.nl ++ Tgi.nl)%string.
Proof.
  assert (H : no_control (Tgi.json_dumps_text fragment)).
  { unfold Tgi.json_dumps_text, json_dumps_str.
    change (String "{" (String dquote (escape "text" ++ String dquote "")) ++ ": "
              ++ String dquote (escape fragment ++ String dquote "") ++ "}")%string
      with ((String "{" (String dquote (escape "text" ++ String dquote "")) ++ ": "
              ++ String dquote "") ++ (escape fragment ++ String dquote "") ++ "}")%string.
    apply no_control_append; [apply no_control_literal; reflexivity|].
    apply no_control_append; [|apply no_control_literal; reflexivity].
    apply no_control_append; [apply no_control_escape | apply no_control_literal; reflexivity]. }
  split; [assumption|]. split.
  - apply no_control_append; [apply no_control_literal; reflexivity | assumption].
  - unfold Tgi.sse_event. now rewrite <- str_append_assoc.
Qed.

(** Reading back the escape of one character. *)
Lemma unescape_escape_char (c : ascii) (rest : string) :
  unescape (escape_char c ++ rest) = option_map (String c) (unescape rest).
Proof. destruct c as [[] [] [] [] [] [] [] []]; reflexivity. Qed.

Lemma unescape_escape (s : string) : unescape (escape s) = Some s.
Proof.
  induction s as [|c s IH]; [reflexivity|].
  cbn [escape]. now rewrite unescape_escape_char, IH.
Qed.

Lemma escape_inj (a b : string) : escape a = escape b -> a = b.
Proof.
  intros H. apply (f_equal unescape) in H.
  rewrite !unescape_escape in H. now injection H.
Qed.

(** X19.  Escaping loses nothing: two fragments with the same event (or
    the same JSON text) are the same fragment, so the reader of the stream
    can recover every fragment exactly. *)
Theorem sse_event_determines_fragment (a b : string) :
  (Tgi.json_dumps_text a = Tgi.json_dumps_text b -> a = b)
  /\ (Tgi.sse_event a = Tgi.sse_event b -> a = b).
Proof.
  assert (H : Tgi.json_dumps_text a = Tgi.json_dumps_text b -> a = b).
  { unfold Tgi.json_dumps_text, json_dumps_str. intros E.
    apply escape_inj.
    apply (@str_append_cancel_r _ _ (String dquote "" ++ "}")%string).
    rewrite <- !str_append_assoc.
    apply (@str_append_cancel_l
             (String "{" (String dquote (escape "text" ++ String dquote "")) ++ ": "
                ++ String dquote "")%string).
    rewrite <- !str_append_assoc. rewrite <- !str_append_assoc in E. exact E. }
  split; [assumption|].
  unfold Tgi.sse_event. intros E. apply H.
  apply str_append_cancel_l in E.
  now apply str_append_cancel_r in E.
Qed.

(** X19 on a fragment that holds a line feed and a quote. *)
Lemma sse_event_determines_fragment_witness :
  String "a" (String (ascii_of_nat 10) (String dquote ""))
    = String "a" (String (ascii_of_nat 10) (String dquote "")).
Proof.
  exact (proj2 (sse_event_determines_fragment
                  (String "a" (String (ascii_of_nat 10) (String dquote "")))
                  (String "a" (String (ascii_of_nat 10) (String dquote ""))))
           eq_refl).
Defined.

(** X20.  The completion endpoint: the question of the URL is unquoted,
    put in the template and streamed once; when the upstream stream emits
    [responses] and closes, the body of the response is one event per token
    that is not special, in the order of emission, each holding the text of
    its token, and it then ends. *)
Theorem completion_streams_one_event_per_fragment (unquote : string -> string)
    (self : Tgi.Model) (server : Tgi.upstream) (question : string)
    (log : list Tgi.generate_call) (responses : list Tgi.StreamResponse)
    (fuel : nat) :
  Tgi.template self = Tgi.TEMPLATE ->
  Tgi.on_generate_stream server log (prompt_of (unquote question)) 1024
    = (responses, None) ->
  List.length responses < fuel ->
  Tgi.app_completion unquote self server fuel question log
    = (map Tgi.sse_event (non_special_texts responses), Tgi.Completed,
       log ++ [stream_call (unquote question)]).
Proof.
  intros Ht Hup Hlt. unfold Tgi.app_completion.
  destruct fuel as [|fuel]; [inversion Hlt|].
  rewrite (@consume_start self server (unquote question) log responses None fuel Ht Hup).
  rewrite (@consume_to_the_end self server responses None _ (S fuel) Hlt).
  reflexivity.
Qed.

(** X20 on the stream of three tokens, the URL decoding left out. *)
Lemma completion_streams_one_event_per_fragment_witness :
  Tgi.app_completion (fun q => q) tgi_self echo_server 4 "hi" []
    = ([Tgi.sse_event "Hel"; Tgi.sse_event "lo"], Tgi.Completed, [stream_call "hi"]).
Proof.
  assert (Hlt : 3 < 4) by lia.
  exact (@completion_streams_one_event_per_fragment (fun q => q) tgi_self echo_server
           "hi" [] _ 4 eq_refl eq_refl Hlt).
Defined.

(* ===================================================================== *)
(** ** [download_data] *)
(* ===================================================================== *)

Lemma py_slice_to_length (n : nat) (s : pystr) :
  List.length (py_slice_to n s) = Nat.min n (List.length s).
Proof. unfold py_slice_to. apply length_firstn. Qed.

Lemma py_slice_to_short (n : nat) (s : pystr) :
  List.length s <= n -> py_slice_to n s = s.
Proof. unfold py_slice_to. apply firstn_all2. Qed.

(** The text column is truncated cell by cell when every cell holds a
    string, and the first cell that holds none ends it with a [TypeError]. *)
Lemma series_apply_truncate (column : list (option pystr)) :
  (exists texts, column = map Some texts
                 /\ Tei.series_apply Tei.truncate_text column
                    = inr (map (py_slice_to 512) texts))
  \/ (In None column
      /\ exists msg, Tei.series_apply Tei.truncate_text column = inl (TypeError msg)).
Proof.
  induction column as [|[text|] column IH].
  - left. exists []. split; reflexivity.
  - destruct IH as [(texts & -> & E) | (Hin & msg & E)].
    + left. exists (text :: texts). split; [reflexivity|].
      cbn [Tei.series_apply Tei.truncate_text map]. now rewrite E.
    + right. split; [now right|]. exists msg.
      cbn [Tei.series_apply Tei.truncate_text]. now rewrite E.
  - right. split; [now left|]. eexists. reflexivity.
Qed.

Lemma download_data_short (table : list (Z * option pystr)) (data : list (Z * pystr)) :
  Tei.download_data table = inr data ->
  Forall (fun pair => List.length (snd pair) <= 512) data.
Proof.
  unfold Tei.download_data. intros H.
  set (rows := firstn Tei.MAX_RESULTS table) in *.
  destruct (series_apply_truncate (map snd rows)) as [(texts & Hcol & E) | (_ & msg & E)];
    rewrite E in H; [|discriminate H].
  assert (Hdata : data = combine (map fst rows) (map (py_slice_to 512) texts))
    by congruence.
  subst data. apply Forall_forall. intros [id text] Hin. cbn [snd].
  apply in_combine_r in Hin. apply in_map_iff in Hin. destruct Hin as (t & <- & _).
  rewrite py_slice_to_length. lia.
Qed.

(** X21.  When [download_data] succeeds, the data it stores holds the
    first 100000 rows of the table at most, in order and with their
    identifiers; every text is the original cut to its first 512 characters
    (code points), so none is longer than 512 and a text that was not
    longer is stored unchanged. *)
Theorem download_data_truncates (table : list (Z * option pystr))
    (data : list (Z * pystr)) :
  Tei.download_data table = inr data ->
  map fst data = firstn Tei.MAX_RESULTS (map fst table)
  /\ List.length data = Nat.min Tei.MAX_RESULTS (List.length table)
  /\ Forall (fun pair => List.length (snd pair) <= 512) data
  /\ Forall2 (fun row pair =>
                exists text, snd row = Some text
                  /\ snd pair = py_slice_to 512 text
                  /\ (List.length text <= 512 -> snd pair = text))
       (firstn Tei.MAX_RESULTS table) data.
Proof.
  unfold Tei.download_data. intros H.
  set (rows := firstn Tei.MAX_RESULTS table) in *.
  destruct (series_apply_truncate (map snd rows)) as [(texts & Hcol & E) | (_ & msg & E)];
    rewrite E in H; [|discriminate H].
  assert (Hdata : data = combine (map fst rows) (map (py_slice_to 512) texts))
    by congruence.
  subst data. clear H.
  assert (Hlen : List.length texts = List.length rows).
  { apply (f_equal (@List.length _)) in Hcol. now rewrite !length_map in Hcol. }
  assert (Hids : map fst (combine (map fst rows) (map (py_slice_to 512) texts))
                 = map fst rows).
  { clear E. revert texts Hcol Hlen. induction rows as [|row rows IH]; intros [|t texts] Hcol Hlen;
      try discriminate Hlen; [reflexivity|].
    cbn. f_equal. apply IH; [now injection Hcol | now injection Hlen]. }
  split; [rewrite Hids; subst rows; symmetry; apply firstn_map|].
  split.
  { rewrite length_combine, !length_map, Hlen, Nat.min_id.
    subst rows. apply length_firstn. }
  split.
  - apply (@download_data_short table). unfold Tei.download_data.
    fold rows. now rewrite E.
  - clear E Hids. revert texts Hcol Hlen.
    induction rows as [|row rows IH]; intros [|t texts] Hcol Hlen;
      try discriminate Hlen; [constructor|].
    cbn [map combine]. injection Hcol as Hrow Hcol. injection Hlen as Hlen.
    constructor; [|now apply IH].
    exists t. cbn [snd]. split; [assumption|]. split; [reflexivity|].
    apply py_slice_to_short.
Qed.

(** X21 on two texts of 200 and of 600 code points that UTF-8 writes on
    three bytes each: the first is stored whole, the second cut to 512. *)
Lemma download_data_truncates_witness :
  Tei.download_data table_cjk = inr [(1%Z, cjk_text 200); (2%Z, cjk_text 512)]
  /\ Forall (fun pair => List.length (snd pair) <= 512)
       [(1%Z, cjk_text 200); (2%Z, cjk_text 512)].
Proof.
  assert (H : Tei.download_data table_cjk
              = inr [(1%Z, cjk_text 200); (2%Z, cjk_text 512)])
    by (vm_compute; reflexivity).
  split; [exact H|].
  destruct (@download_data_truncates table_cjk _ H) as (_ & _ & Hshort & _).
  exact Hshort.
Defined.

(** X22.  [download_data] slices every text cell without looking at it
    first: it succeeds exactly when each of the first 100000 rows holds a
    text, and a row among them whose text cell is empty makes it raise a
    [TypeError], in which case nothing is stored. *)
Theorem download_data_needs_every_text (table : list (Z * option pystr)) :
  (Forall (fun row => snd row <> None) (firstn Tei.MAX_RESULTS table) ->
     exists data, Tei.download_data table = inr data)
  /\ (forall id, In (id, None) (firstn Tei.MAX_RESULTS table) ->
     exists msg, Tei.download_data table = inl (TypeError msg)).
Proof.
  unfold Tei.download_data.
  set (rows := firstn Tei.MAX_RESULTS table).
  destruct (series_apply_truncate (map snd rows)) as [(texts & Hcol & E) | (Hin & msg & E)];
    rewrite E.
  - split; [intros _; eexists; reflexivity|].
    intros id Hid. exfalso.
    apply (in_map snd) in Hid. cbn [snd] in Hid. rewrite Hcol in Hid.
    apply in_map_iff in Hid. destruct Hid as (t & Ht & _). discriminate Ht.
  - split; [|intros id _; exists msg; reflexivity].
    intros Hall. exfalso. apply in_map_iff in Hin. destruct Hin as (row & Hrow & Hin').
    rewrite Forall_forall in Hall. exact (Hall row Hin' Hrow).
Qed.

(** X22 on the table whose second row has no text. *)
Lemma download_data_needs_every_text_witness :
  exists msg, Tei.download_data table_with_null = inl (TypeError msg).
Proof.
  destruct (download_data_needs_every_text table_with_null) as [_ H].
  apply (H 2%Z). vm_compute. right. left. reflexivity.
Defined.
